(** * altscore_challenge: H3 indexing and ring-neighbour aggregation

    A shallow embedding of [helper.py]:
    - [compute_neighbours_col] and [compute_neighbours_costs_for_row]
      (the neighbour aggregator),
    - [compute_h3_index] and [process_file_with_h3] (the chunked indexer).

    The H3 library ([h3.h3_distance], [h3.geo_to_h3]), DuckDB and the
    Parquet writer are external: the two H3 functions are parameters of the
    development, the I/O objects are modelled by an explicit world state
    together with a description of the outside: which external operation
    fails, and which schema pandas and pyarrow infer for a chunk.

    Floating-point attribute values are idealised as rationals: the
    rounding and overflow of float64 are not modelled. *)

From Stdlib Require Import QArith.
From stdpp Require Import gmap strings list.

Open Scope string_scope.
Open Scope list_scope.
Open Scope Z_scope.

(** ** Python exceptions and results *)

(** The exception classes that the modelled code can meet.  All of them are
    subclasses of Python's [Exception]. *)
Inductive exn : Type :=
| KeyError (key : string)
| ValueError (msg : string)
| TypeError (msg : string)
| H3Error (msg : string)
| IOError (msg : string).

(** Outcome of evaluating a Python expression: a value, or a raised
    exception. *)
Inductive result (A : Type) : Type :=
| Ok (a : A)
| Raise (e : exn).
Arguments Ok {A} a.
Arguments Raise {A} e.

#[global] Instance result_ret : MRet result := λ A a, Ok a.
#[global] Instance result_bind : MBind result := λ A B f m,
  match m with
  | Ok a => f a
  | Raise e => Raise e
  end.

Definition is_ok {A} (r : result A) : bool :=
  match r with Ok _ => true | Raise _ => false end.

(** ** Data model of the aggregator *)

(** One row of the hexagon table: its [hex_id] column and its numeric
    columns, by column name. *)
Record HexRow : Type := mkHexRow {
  hex_id : string;
  attrs : gmap string Q
}.

(** [row[col]] on a numeric column; a missing label raises [KeyError]. *)
Definition getitem (row : HexRow) (col : string) : result Q :=
  match attrs row !! col with
  | Some v => Ok v
  | None => Raise (KeyError col)
  end.

(** A float result, or [np.nan]. *)
Inductive npfloat : Type :=
| Float (q : Q)
| NaN.

Definition Qsum (l : list Q) : Q := foldr Qplus (0%Q) l.

(** [np.mean] of a non-empty list of numbers, as the exact quotient (what
    float64 arithmetic rounds is not modelled); the quotient is kept in
    lowest terms so that equal means are equal terms. *)
Definition np_mean (costs : list Q) : Q :=
  Qred (Qsum costs / inject_Z (Z.of_nat (length costs))).

Section Aggregator.

(** [h3.h3_distance]: the grid distance of two cells, which raises on
    cell identifiers it cannot handle. *)
Variable h3_distance : string → string → result Z.

(** The loop of [compute_neighbours_col] over [df.iterrows()], started with
    the accumulator [costs]. *)
Fixpoint collect_costs (center : string) (df : list HexRow)
    (max_distance : Z) (col : string) (costs : list Q) : result (list Q) :=
  match df with
  | [] => Ok costs
  | comp_to :: rest =>
      let candid := hex_id comp_to in
      distance ← h3_distance center candid;
      if (0 <? distance) && (distance <=? max_distance) then
        v ← getitem comp_to col;
        collect_costs center rest max_distance col (costs ++ [v])
      else
        collect_costs center rest max_distance col costs
  end.

Definition compute_neighbours_col (row : HexRow) (df : list HexRow)
    (max_distance : Z) (col : string) : result npfloat :=
  let center := hex_id row in
  costs ← collect_costs center df max_distance col [];
  if (length costs =? 0)%nat then Ok NaN
  else Ok (Float (np_mean costs)).

Definition compute_neighbours_costs_for_row (row : HexRow)
    (df : list HexRow) : result (list npfloat) :=
  r1 ← compute_neighbours_col row df 1 "cost_of_living";
  r2 ← compute_neighbours_col row df 2 "cost_of_living";
  r3 ← compute_neighbours_col row df 3 "cost_of_living";
  r4 ← compute_neighbours_col row df 4 "cost_of_living";
  Ok [r1; r2; r3; r4].

(** The documented use of [compute_neighbours_costs_for_row]:
    [df.apply(..., axis=1)] calls it on the rows of [df] from first to
    last and stops at the first call that raises. *)
Fixpoint apply_rows (f : HexRow → result (list npfloat))
    (rows : list HexRow) : result (list (list npfloat)) :=
  match rows with
  | [] => Ok []
  | row :: rest =>
      r ← f row;
      rs ← apply_rows f rest;
      Ok (r :: rs)
  end.

Definition neighbor_means (df : list HexRow) : result (list (list npfloat)) :=
  apply_rows (λ row, compute_neighbours_costs_for_row row df) df.

End Aggregator.

(** ** The aggregator as the specification words it *)

Section AggregatorSpec.

(** The grid distance of the specification: a total step count. *)
Variable grid_distance : string → string → Z.

Definition in_ring (c : string) (d : Z) (r2 : HexRow) : Prop :=
  0 < grid_distance c (hex_id r2) ∧ grid_distance c (hex_id r2) ≤ d.

#[global] Instance in_ring_dec c d r2 : Decision (in_ring c d r2).
Proof. unfold in_ring. apply _. Defined.

(** The rows whose cell is at a distance in (0, d] from [c]. *)
Definition neighbours (c : string) (d : Z) (rows : list HexRow) : list HexRow :=
  filter (in_ring c d) rows.

(** The attribute values of a list of rows (a row without the attribute
    contributes nothing). *)
Definition values_of (col : string) (rows : list HexRow) : list Q :=
  omap (λ r2, attrs r2 !! col) rows.

(** Mean of the collected values, or the no-data sentinel. *)
Definition mean_or_nan (vals : list Q) : npfloat :=
  match vals with
  | [] => NaN
  | _ :: _ => Float (np_mean vals)
  end.

Definition neighbour_mean (c : string) (d : Z) (col : string)
    (rows : list HexRow) : npfloat :=
  mean_or_nan (values_of col (neighbours c d rows)).

(** The four means of one row, for the distances 1, 2, 3, 4 in that order. *)
Definition ring_means (rows : list HexRow) (row : HexRow) : list npfloat :=
  (λ d, neighbour_mean (hex_id row) d "cost_of_living" rows) <$> [1; 2; 3; 4].

(** The rows of the ring of [c] carry the column [col]. *)
Definition ring_has_column (c : string) (d : Z) (col : string) (r2 : HexRow) : Prop :=
  in_ring c d r2 → is_Some (attrs r2 !! col).

(** A distance function of the library computes the grid distance from [c]
    to the cell of [r2]. *)
Definition distance_agrees (h3_distance : string → string → result Z)
    (c : string) (r2 : HexRow) : Prop :=
  h3_distance c (hex_id r2) = Ok (grid_distance c (hex_id r2)).

End AggregatorSpec.

(** ** Data model of the indexer *)

(** A cell of a DataFrame read from a Parquet file. *)
Inductive pyval : Type :=
| VFloat (q : Q)
| VStr (s : string)
| VNull.

(** A row of a DataFrame: column label to value.  A DataFrame is the list of
    its rows, in row order. *)
Abbreviation Series := (gmap string pyval).

(** [row[label]]; a missing label raises [KeyError]. *)
Definition series_get (row : Series) (label : string) : result pyval :=
  match row !! label with
  | Some v => Ok v
  | None => Raise (KeyError label)
  end.

(** [try: body except Exception: handler]: every member of [exn] is an
    [Exception], so the handler takes them all. *)
Definition try_except {A} (body : result A) (handler : exn → result A) : result A :=
  match body with
  | Ok a => Ok a
  | Raise e => handler e
  end.

(** [range(start, stop, step)] as the list of its elements; a zero step
    raises [ValueError]. *)
Definition range_len (start stop step : Z) : Z :=
  if 0 <? step then Z.max 0 ((stop - start + step - 1) / step)
  else Z.max 0 ((start - stop - step - 1) / (- step)).

Definition py_range (start stop step : Z) : result (list Z) :=
  if step =? 0 then Raise (ValueError "range() arg 3 must not be zero")
  else Ok ((λ i : nat, start + Z.of_nat i * step) <$> seq 0 (Z.to_nat (range_len start stop step))).

(** [df.apply(f, axis=1)]: [f] on every row, first to last; the first
    exception ends it. *)
Fixpoint apply_axis1 (f : Series → result string) (df : list Series) : result (list string) :=
  match df with
  | [] => Ok []
  | row :: rest =>
      s ← f row;
      ss ← apply_axis1 f rest;
      Ok (s :: ss)
  end.

(** [df[label] = column]: every row gets its element of the column under
    [label] (a new column, or the old one overwritten). *)
Definition assign_column (df : list Series) (label : string) (column : list string) : list Series :=
  zip_with (λ (row : Series) (s : string), <[label := VStr s]> row) df column.

(** *** The world of [process_file_with_h3] *)

Inductive progress : Type :=
| TotalRows (n : Z)
| ChunkWritten (offset : Z)
| ProcessingComplete.

(** What the function did to the outside, in order.  Only operations that
    completed are recorded. *)
Inductive event : Type :=
| EConnect
| ECountRows
| EFetch (offset : Z)
| EOpenWriter
| EWriteTable (table : list Series)
| ECloseWriter
| ECloseConn
| EPrint (line : progress).

(** The type of a column in the schema of a pyarrow table. *)
Inductive arrow_type : Type :=
| TDouble
| TString
| TNull.

#[global] Instance arrow_type_eq_dec : EqDecision arrow_type.
Proof. solve_decision. Defined.

(** A table's schema: column label to type. *)
Abbreviation Schema := (gmap string arrow_type).

(** The outside of one call: the input file, the operations that fail and
    the schemas that the libraries infer. *)
Record env : Type := mkEnv {
  (** the rows of [input_file]; [None] when the file cannot be read *)
  input_rows : option (list Series);
  (** the chunk query with this OFFSET raises *)
  fetch_fails : Z → bool;
  (** [pq.ParquetWriter(output_file, ...)] raises *)
  open_fails : bool;
  (** [write_table] raises when the file already holds this many rows *)
  write_fails : nat → bool;
  (** [writer.close()] raises *)
  close_fails : bool;
  (** [pa.Table.from_pandas(df_chunk).schema]: the schema that pandas and
      pyarrow infer for a chunk with its new column; it depends on the
      values of the chunk (a column of strings that is all null in a chunk
      is given the type null there) *)
  table_schema : list Series → Schema
}.

Record state : Type := mkState {
  (** the local variable [writer]: [None], or the [ParquetWriter], which
      holds the schema it was created with *)
  writer : option Schema;
  (** the rows written to [output_file] so far; [None] while the file does
      not exist.  The file can be read back only once the writer is closed
      (see [readable_rows]) *)
  out_file : option (list Series);
  trace : list event
}.

Definition initial_state : state :=
  {| writer := None; out_file := None; trace := [] |}.

(** Statements: state in, outcome and state out.  The state survives a
    raised exception. *)
Definition io (A : Type) : Type := state → result A * state.

#[global] Instance io_ret : MRet io := λ A a st, (Ok a, st).
#[global] Instance io_bind : MBind io := λ A B f m st,
  match m st with
  | (Ok a, st1) => f a st1
  | (Raise e, st1) => (Raise e, st1)
  end.

Definition lift {A} (r : result A) : io A := λ st, (r, st).
Definition raise {A} (e : exn) : io A := λ st, (Raise e, st).

Definition emit (ev : event) : io unit := λ st,
  (Ok tt, {| writer := writer st; out_file := out_file st; trace := trace st ++ [ev] |}).

Definition get_writer : io (option Schema) := λ st, (Ok (writer st), st).

Definition set_writer (w : option Schema) : io unit := λ st,
  (Ok tt, {| writer := w; out_file := out_file st; trace := trace st |}).

Definition set_out_file (rows : list Series) : io unit := λ st,
  (Ok tt, {| writer := writer st; out_file := Some rows; trace := trace st |}).

Definition get_out_file : io (option (list Series)) := λ st, (Ok (out_file st), st).

(** [try: body finally: fin].  [fin] runs on both outcomes of [body]; an
    exception of [fin] replaces the outcome of [body]. *)
Definition try_finally {A} (body : io A) (fin : io unit) : io A := λ st,
  let '(r, st1) := body st in
  match fin st1 with
  | (Ok _, st2) => (r, st2)
  | (Raise e, st2) => (Raise e, st2)
  end.

(** [for x in xs: body]. *)
Fixpoint for_each {A} (xs : list A) (body : A → io unit) : io unit :=
  match xs with
  | [] => mret tt
  | x :: rest => body x ;; for_each rest body
  end.

Definition print (line : progress) : io unit := emit (EPrint line).

(** [pass] *)
Definition skip : io unit := mret tt.

Section Indexer.

(** [h3.geo_to_h3]: the cell of a coordinate at a resolution; raises on
    coordinates it cannot convert. *)
Variable geo_to_h3 : pyval → pyval → Z → result string.

Variable E : env.

Definition compute_h3_index (lat lon : pyval) (resolution : Z) : result string :=
  try_except (geo_to_h3 lat lon resolution) (λ _, Ok "unknown").

(** [duckdb.connect()] *)
Definition duckdb_connect : io unit := emit EConnect.

(** [conn.execute("SELECT COUNT( * ) FROM input_file").fetchone()[0]] *)
Definition count_rows : io Z :=
  match input_rows E with
  | Some rows => emit ECountRows ;; mret (Z.of_nat (length rows))
  | None => raise (IOError "cannot read input file")
  end.

(** [conn.execute("SELECT * FROM input_file LIMIT chunk_size OFFSET offset").fetchdf()] *)
Definition fetchdf (chunk_size offset : Z) : io (list Series) :=
  match input_rows E with
  | Some rows =>
      if fetch_fails E offset then raise (IOError "query failed")
      else emit (EFetch offset) ;;
           mret (take (Z.to_nat chunk_size) (drop (Z.to_nat offset) rows))
  | None => raise (IOError "cannot read input file")
  end.

(** [pq.ParquetWriter(output_file, schema, use_dictionary=True)]: creates
    (or truncates) the output file; the writer keeps [schema]. *)
Definition parquet_writer (schema : Schema) : io Schema :=
  if open_fails E then raise (IOError "cannot open output file")
  else set_out_file [] ;; emit EOpenWriter ;; mret schema.

(** [writer.write_table(table)], for the writer created with
    [writer_schema]: pyarrow raises [ValueError] when the schema of the
    table is not the one of the writer. *)
Definition write_table (writer_schema : Schema) (table : list Series) : io unit :=
  if decide (table_schema E table = writer_schema) then
    f ← get_out_file;
    let written := default [] f in
    if write_fails E (length written) then raise (IOError "write failed")
    else set_out_file (written ++ table) ;; emit (EWriteTable table)
  else
    raise (ValueError "Table schema does not match schema used to create file").

(** [writer.close()]: writes the footer; a Parquet file without footer
    cannot be read. *)
Definition writer_close : io unit :=
  if close_fails E then raise (IOError "close failed")
  else emit ECloseWriter.

(** [conn.close()] *)
Definition conn_close : io unit := emit ECloseConn.

(** The lambda given to [df_chunk.apply]; the resolution is the default
    of [compute_h3_index]. *)
Definition index_row (row : Series) : result string :=
  lat ← series_get row "lat";
  lon ← series_get row "lon";
  compute_h3_index lat lon 8.

(** The body of the chunk loop. *)
Definition process_chunk (chunk_size offset : Z) : io unit :=
  df_chunk ← fetchdf chunk_size offset;
  column ← lift (apply_axis1 index_row df_chunk);
  let table := assign_column df_chunk "h3_index" column in
  w ← get_writer;
  the_writer ← match (w : option Schema) with
               | Some the_writer => mret the_writer
               | None =>
                   new_writer ← parquet_writer (table_schema E table);
                   set_writer (Some new_writer) ;;
                   mret new_writer
               end;
  write_table the_writer table ;;
  print (ChunkWritten offset).

(** The [finally] block. *)
Definition cleanup : io unit :=
  w ← get_writer;
  match (w : option Schema) with
  | Some _ => writer_close
  | None => skip
  end ;;
  conn_close ;;
  print ProcessingComplete.

(** The [try] block: the loop over [range(0, total_rows, chunk_size)]. *)
Definition chunk_loop (chunk_size total_rows : Z) : io unit :=
  offsets ← lift (py_range 0 total_rows chunk_size);
  for_each offsets (process_chunk chunk_size).

Definition process_file_with_h3 (chunk_size : Z) : io unit :=
  duckdb_connect ;;
  total_rows ← count_rows;
  print (TotalRows total_rows) ;;
  set_writer None ;;
  try_finally (chunk_loop chunk_size total_rows) cleanup.

(** One call, from a world without output file. *)
Definition run (chunk_size : Z) : result unit * state :=
  process_file_with_h3 chunk_size initial_state.

End Indexer.

(** *** The indexer as the specification words it *)

(** [cell_of]: the cell of a coordinate, or the sentinel when the conversion
    fails. *)
Definition cell_of (geo_to_h3 : pyval → pyval → Z → result string)
    (lat lon : pyval) (resolution : Z) : string :=
  match geo_to_h3 lat lon resolution with
  | Ok cell => cell
  | Raise _ => "unknown"
  end.

(** A record after indexing: the same row with the cell of its coordinates
    at resolution 8 under [h3_index]. *)
Definition indexed (geo_to_h3 : pyval → pyval → Z → result string)
    (row : Series) : Series :=
  match row !! "lat", row !! "lon" with
  | Some lat, Some lon => <["h3_index" := VStr (cell_of geo_to_h3 lat lon 8)]> row
  | _, _ => row
  end.

(** *** Observations on a finished call *)

Definition count_in (p : event → bool) (evs : list event) : nat :=
  length (List.filter p evs).

(** How often an event of the kind [p] happened in the call. *)
Definition count_events (p : event → bool) (st : state) : nat :=
  count_in p (trace st).

Definition is_connect (ev : event) : bool :=
  match ev with EConnect => true | _ => false end.
Definition is_close_conn (ev : event) : bool :=
  match ev with ECloseConn => true | _ => false end.
Definition is_open_writer (ev : event) : bool :=
  match ev with EOpenWriter => true | _ => false end.
Definition is_close_writer (ev : event) : bool :=
  match ev with ECloseWriter => true | _ => false end.
Definition is_fetch (ev : event) : bool :=
  match ev with EFetch _ => true | _ => false end.

(** The rows handed to [write_table], over the whole call. *)
Definition written_tables (evs : list event) : list Series :=
  concat (omap (λ ev, match ev with EWriteTable t => Some t | _ => None end) evs).

Definition rows_written (st : state) : list Series := written_tables (trace st).

(** The rows of the output file ([[]] when there is none). *)
Definition output_rows (st : state) : list Series := default [] (out_file st).

(** What a reader of the output file gets: its rows once the writer has
    been closed, nothing while the file has no footer (or does not exist). *)
Definition readable_rows (st : state) : option (list Series) :=
  if (0 <? count_events is_close_writer st)%nat then out_file st else None.

(** An outside where no operation fails, with a readable input: every chunk
    is given the same schema. *)
Definition no_faults (rows : list Series) : env :=
  {| input_rows := Some rows;
     fetch_fails := λ _, false;
     open_fails := false;
     write_fails := λ _, false;
     close_fails := false;
     table_schema := λ _, ∅ |}.

(** No query, no opening, no write and no close fails for want of the
    outside. *)
Definition io_succeeds (E : env) : Prop :=
  (∀ offset, fetch_fails E offset = false)
  ∧ open_fails E = false
  ∧ (∀ n, write_fails E n = false)
  ∧ close_fails E = false.

(** The table of the chunk number [k], at [chunk] rows per chunk. *)
Definition chunk_table (geo_to_h3 : pyval → pyval → Z → result string)
    (rows : list Series) (chunk k : nat) : list Series :=
  indexed geo_to_h3 <$> take chunk (drop (k * chunk) rows).

(** Every chunk is given the schema of the first one, the schema the
    writer is created with. *)
Definition uniform_schema (E : env) (geo_to_h3 : pyval → pyval → Z → result string)
    (rows : list Series) (chunk : nat) : Prop :=
  ∀ k : nat, (k * chunk < length rows)%nat →
    table_schema E (chunk_table geo_to_h3 rows chunk k)
    = table_schema E (chunk_table geo_to_h3 rows chunk 0).

(** Every row has the two coordinate columns. *)
Definition has_coordinates (rows : list Series) : Prop :=
  Forall (λ row : Series, is_Some (row !! "lat") ∧ is_Some (row !! "lon")) rows.

(** *** The state between two chunks *)

(** What holds before the chunk number [k] of a call on [rows] with
    [chunk] rows per chunk, when nothing fails: the first [k] chunks are
    indexed and in the output file, and the file exists exactly when the
    writer does, which was created with the schema of the first chunk. *)
Definition chunks_done (geo_to_h3 : pyval → pyval → Z → result string)
    (E : env) (rows : list Series) (chunk k : nat) (st : state) : Prop :=
  output_rows st = indexed geo_to_h3 <$> take (k * chunk) rows
  ∧ rows_written st = indexed geo_to_h3 <$> take (k * chunk) rows
  ∧ match writer st with
    | Some schema =>
        is_Some (out_file st) ∧ k ≠ 0%nat
        ∧ schema = table_schema E (chunk_table geo_to_h3 rows chunk 0)
    | None => out_file st = None ∧ k = 0%nat
    end.

(** What holds of the resources inside the [try] block, whatever fails: the
    writer was opened exactly when the variable [writer] is set, and nothing
    was closed. *)
Definition resources_held (st : state) : Prop :=
  count_events is_open_writer st
  = match writer st with Some _ => 1%nat | None => 0%nat end
  ∧ count_events is_close_writer st = 0%nat
  ∧ count_events is_close_conn st = 0%nat
  ∧ count_events is_connect st = 1%nat.

(** ** Small concrete instances *)

(** A grid of four cells on a line; every other identifier (the indexer's
    ["unknown"] among them) is rejected. *)
Definition toy_position (c : string) : option Z :=
  if String.eqb c "A" then Some 0
  else if String.eqb c "B" then Some 1
  else if String.eqb c "C" then Some 2
  else if String.eqb c "D" then Some 7
  else None.

Definition toy_distance (a b : string) : result Z :=
  match toy_position a, toy_position b with
  | Some x, Some y => Ok (Z.abs (x - y))
  | _, _ => Raise (H3Error "invalid cell")
  end.

(** The same grid with a total distance: unknown cells sit at position 0. *)
Definition toy_grid_distance (a b : string) : Z :=
  Z.abs (default 0 (toy_position a) - default 0 (toy_position b)).

Definition hex_row (c : string) (cost : Z) : HexRow :=
  {| hex_id := c; attrs := {[ "cost_of_living" := inject_Z cost ]} |}.

(** The table of the self-exclusion scenario. *)
Definition table_AAB : list HexRow := [hex_row "A" 10; hex_row "A" 10; hex_row "B" 20].

Definition table_ABCD : list HexRow :=
  [hex_row "A" 10; hex_row "B" 20; hex_row "C" 60; hex_row "D" 5].

Definition table_with_unknown : list HexRow :=
  [hex_row "A" 10; hex_row "unknown" 30; hex_row "B" 20].

(** A conversion that accepts latitudes in [-90, 90] and longitudes in
    [-180, 180], and names the cell after the quadrant. *)
Definition toy_cell (lat lon : Q) : string :=
  String.append (if Qle_bool 0 lat then "N" else "S") (if Qle_bool 0 lon then "E" else "W").

Definition toy_geo_to_h3 (lat lon : pyval) (resolution : Z) : result string :=
  match lat, lon with
  | VFloat la, VFloat lo =>
      if Qle_bool (-90) la && Qle_bool la 90 && Qle_bool (-180) lo && Qle_bool lo 180
      then Ok (toy_cell la lo)
      else Raise (H3Error "coordinate out of range")
  | _, _ => Raise (TypeError "a float is required")
  end.

Definition point (lat lon : Z) : Series :=
  <["lat" := VFloat (inject_Z lat)]> (<["lon" := VFloat (inject_Z lon)]> ∅).

Definition three_points : list Series := [point 10 20; point 200 0; point (-5) (-7)].

Definition five_points : list Series :=
  [point 10 20; point 200 0; point (-5) (-7); point 1 (-1); point (-1) 1].

(** An input file that cannot be read. *)
Definition unreadable_input : env :=
  {| input_rows := None;
     fetch_fails := λ _, false;
     open_fails := false;
     write_fails := λ _, false;
     close_fails := false;
     table_schema := λ _, ∅ |}.

(** A readable input whose writer fails to close. *)
Definition close_failure (rows : list Series) : env :=
  {| input_rows := Some rows;
     fetch_fails := λ _, false;
     open_fails := false;
     write_fails := λ _, false;
     close_fails := true;
     table_schema := λ _, ∅ |}.

(** A readable input whose second chunk cannot be written. *)
Definition write_failure (rows : list Series) (after : nat) : env :=
  {| input_rows := Some rows;
     fetch_fails := λ _, false;
     open_fails := false;
     write_fails := λ n, (after <=? n)%nat;
     close_fails := false;
     table_schema := λ _, ∅ |}.

(** ** The calling script and further observations *)

(** [dataframe_enrichment.py]: one call of [process_file_with_h3] on the
    input and output paths of the script, with the default
    [chunk_size=1_000_000]. *)
Definition dataframe_enrichment_main
    (geo_to_h3 : pyval → pyval → Z → result string) (E : env) : result unit * state :=
  run geo_to_h3 E 1000000.

Definition is_write_table (ev : event) : bool :=
  match ev with EWriteTable _ => true | _ => false end.
Definition is_chunk_print (ev : event) : bool :=
  match ev with EPrint (ChunkWritten _) => true | _ => false end.

(** A table handed to [write_table] has at most [chunk] rows. *)
Definition chunk_bounded (chunk : nat) (ev : event) : Prop :=
  match ev with
  | EWriteTable table => (length table ≤ chunk)%nat
  | _ => True
  end.


(** The state in which the loop is entered, for an input of [n] rows. *)
Definition loop_entry (n : Z) : state :=
  {| writer := None; out_file := None;
     trace := [EConnect; ECountRows; EPrint (TotalRows n)] |}.

(** The number of chunks of [n] rows at [cs] rows per chunk. *)
Definition chunk_count (n cs : Z) : nat := Z.to_nat ((n + cs - 1) / cs).

(** An outside in which the output file cannot be opened. *)
Definition open_failure (rows : list Series) : env :=
  {| input_rows := Some rows;
     fetch_fails := λ _, false;
     open_fails := true;
     write_fails := λ _, false;
     close_fails := false;
     table_schema := λ _, ∅ |}.

(** A row without the latitude column. *)
Definition no_latitude (lon : Z) : Series :=
  <["lon" := VFloat (inject_Z lon)]> ∅.

(** A row of the hexagon table without any numeric column. *)
Definition bare_hex_row (c : string) : HexRow :=
  {| hex_id := c; attrs := ∅ |}.

(** ** Schemas that differ between chunks *)

Definition value_type (v : pyval) : arrow_type :=
  match v with
  | VFloat _ => TDouble
  | VStr _ => TString
  | VNull => TNull
  end.

Definition join_type (a b : arrow_type) : arrow_type :=
  match a, b with
  | TNull, t | t, TNull => t
  | TString, _ | _, TString => TString
  | TDouble, TDouble => TDouble
  end.

(** A concrete inference for the examples, after what pyarrow does with a
    column of Python objects: a column has the type of the values found in
    the chunk, and the type null when all its cells in the chunk are null. *)
Definition toy_table_schema (table : list Series) : Schema :=
  foldr (λ (row : Series) (acc : Schema),
           union_with (λ a b, Some (join_type a b)) (value_type <$> row) acc)
        ∅ table.

(** A readable input on which no operation fails for want of the outside,
    with the schemas of [toy_table_schema]. *)
Definition typed_input (rows : list Series) : env :=
  {| input_rows := Some rows;
     fetch_fails := λ _, false;
     open_fails := false;
     write_fails := λ _, false;
     close_fails := false;
     table_schema := toy_table_schema |}.

Definition named_point (lat lon : Z) (name : pyval) : Series :=
  <["name" := name]> (point lat lon).

(** Four rows whose [name] column has strings in the first two rows and is
    null in the last two. *)
Definition names_then_nulls : list Series :=
  [named_point 10 20 (VStr "a"); named_point 1 2 (VStr "b");
   named_point 3 4 VNull; named_point 5 6 VNull].

(** ** Proof tactics *)

(** Splits a [Forall] over an explicit list into one goal per element. *)
Ltac forall_elements :=
  repeat match goal with |- Forall _ _ => constructor end.

(** Unfolds the statements of the indexer down to state transformers. *)
Ltac unfold_io :=
  unfold process_chunk, cleanup, fetchdf, write_table, parquet_writer,
    writer_close, conn_close, get_writer, set_writer, get_out_file,
    set_out_file, print, emit, raise, lift, skip,
    mbind, io_bind, mret, io_ret in *.

(** * Properties of the aggregator *)

Section AggregatorFacts.

Variable h3_distance : string → string → result Z.
Variable grid_distance : string → string → Z.

Lemma ring_test_spec c d r2 :
  (0 <? grid_distance c (hex_id r2)) && (grid_distance c (hex_id r2) <=? d) = true
  ↔ in_ring grid_distance c d r2.
Proof. unfold in_ring. rewrite andb_true_iff, Z.ltb_lt, Z.leb_le. done. Qed.

Lemma in_ring_mono c d d' r2 :
  d ≤ d' → in_ring grid_distance c d r2 → in_ring grid_distance c d' r2.
Proof. unfold in_ring. lia. Qed.

Lemma ring_has_column_all c d col df :
  Forall (λ r2, is_Some (attrs r2 !! col)) df →
  Forall (ring_has_column grid_distance c d col) df.
Proof. intros H. eapply Forall_impl; [exact H|]. intros r2 Hsome _. exact Hsome. Qed.

(** The loop collects, in table order, the values of the ring. *)
Lemma collect_costs_ring c df d col costs :
  Forall (distance_agrees grid_distance h3_distance c) df →
  Forall (ring_has_column grid_distance c d col) df →
  collect_costs h3_distance c df d col costs
  = Ok (costs ++ values_of col (neighbours grid_distance c d df)).
Proof.
  intros Hdist Hcol. revert costs.
  induction df as [|r2 df IH]; intros costs; simpl.
  { by rewrite app_nil_r. }
  apply Forall_cons in Hdist as [Hr2 Hdist].
  apply Forall_cons in Hcol as [Hc2 Hcol].
  red in Hr2. rewrite Hr2. simpl.
  unfold neighbours. rewrite filter_cons.
  destruct (decide (in_ring grid_distance c d r2)) as [Hin|Hout].
  - apply ring_test_spec in Hin as Htest. rewrite Htest.
    destruct (Hc2 Hin) as [v Hv].
    unfold getitem. rewrite Hv. simpl.
    rewrite (IH Hdist Hcol). unfold values_of at 2. simpl. rewrite Hv.
    by rewrite <- app_assoc.
  - destruct ((0 <? grid_distance c (hex_id r2))
              && (grid_distance c (hex_id r2) <=? d)) eqn:Htest.
    { apply ring_test_spec in Htest. done. }
    apply (IH Hdist Hcol).
Qed.

Lemma values_of_length c d col df :
  Forall (ring_has_column grid_distance c d col) df →
  length (values_of col (neighbours grid_distance c d df))
  = length (neighbours grid_distance c d df).
Proof.
  intros Hcol. unfold neighbours.
  induction df as [|r2 df IH]; [done|].
  apply Forall_cons in Hcol as [Hc2 Hcol].
  rewrite filter_cons. case_decide as Hin; [|by apply IH].
  destruct (Hc2 Hin) as [v Hv].
  unfold values_of. simpl. rewrite Hv. simpl. f_equal. by apply IH.
Qed.

Lemma compute_neighbours_col_ring row df d col :
  Forall (distance_agrees grid_distance h3_distance (hex_id row)) df →
  Forall (ring_has_column grid_distance (hex_id row) d col) df →
  compute_neighbours_col h3_distance row df d col
  = Ok (neighbour_mean grid_distance (hex_id row) d col df).
Proof.
  intros Hdist Hcol. unfold compute_neighbours_col, neighbour_mean.
  rewrite (collect_costs_ring _ _ _ _ _ Hdist Hcol). simpl.
  by destruct (values_of col _).
Qed.

(** [np_mean] is the arithmetic mean: sum over count. *)
Lemma np_mean_spec (vals : list Q) :
  vals ≠ [] →
  (np_mean vals * inject_Z (Z.of_nat (length vals)) == Qsum vals)%Q.
Proof.
  intros Hne. unfold np_mean. rewrite Qred_correct.
  field. destruct vals as [|v vals]; [done|].
  simpl length. unfold Qeq. simpl. lia.
Qed.

(** C1: on a table where [h3_distance] computes the grid distance from the
    centre and the rows of the ring carry the attribute,
    [compute_neighbours_col] returns the mean of the attribute over exactly
    the rows at a distance in (0, d] from the centre, each counted once, and
    [NaN] when there is none; rows at distance 0 are never in the ring. *)
Theorem compute_neighbours_col_mean row df d col :
  Forall (distance_agrees grid_distance h3_distance (hex_id row)) df →
  Forall (ring_has_column grid_distance (hex_id row) d col) df →
  let ring := neighbours grid_distance (hex_id row) d df in
  let vals := values_of col ring in
  compute_neighbours_col h3_distance row df d col
    = Ok (neighbour_mean grid_distance (hex_id row) d col df)
  ∧ (∀ r2, r2 ∈ ring ↔
       r2 ∈ df ∧ 0 < grid_distance (hex_id row) (hex_id r2)
               ∧ grid_distance (hex_id row) (hex_id r2) ≤ d)
  ∧ length vals = length ring
  ∧ (vals = [] → compute_neighbours_col h3_distance row df d col = Ok NaN)
  ∧ (vals ≠ [] → ∃ q, compute_neighbours_col h3_distance row df d col = Ok (Float q)
       ∧ (q * inject_Z (Z.of_nat (length vals)) == Qsum vals)%Q)
  ∧ (∀ r2, r2 ∈ df → grid_distance (hex_id row) (hex_id r2) = 0 → r2 ∉ ring).
Proof.
  intros Hdist Hcol ring vals.
  pose proof (compute_neighbours_col_ring row df d col Hdist Hcol) as Hres.
  split; [exact Hres|]. split; [|split; [|split; [|split]]].
  - intros r2. unfold ring, neighbours. rewrite list_elem_of_filter.
    unfold in_ring. tauto.
  - by apply values_of_length.
  - intros Hnil. rewrite Hres. unfold neighbour_mean. fold ring. fold vals.
    by rewrite Hnil.
  - intros Hne. exists (np_mean vals). split.
    + rewrite Hres. unfold neighbour_mean. fold ring. fold vals.
      by destruct vals.
    + by apply np_mean_spec.
  - intros r2 _ Hzero. unfold ring, neighbours. rewrite list_elem_of_filter.
    unfold in_ring. lia.
Qed.

(** The self-exclusion scenario, for any distance function with
    distance(A, A) = 0 and distance(A, B) = 1. *)
Lemma self_exclusion_scenario (A B : string) :
  h3_distance A A = Ok 0 →
  h3_distance A B = Ok 1 →
  compute_neighbours_col h3_distance (hex_row A 10)
    [hex_row A 10; hex_row A 10; hex_row B 20] 1 "cost_of_living"
  = Ok (Float 20).
Proof.
  intros HAA HAB. unfold compute_neighbours_col. simpl.
  rewrite HAA, HAB. simpl. unfold getitem. simpl.
  rewrite lookup_singleton_eq. reflexivity.
Qed.

(** The per-row call, on a table whose rows carry [cost_of_living]. *)
Lemma compute_neighbours_costs_for_row_ring row df :
  Forall (distance_agrees grid_distance h3_distance (hex_id row)) df →
  Forall (λ r2, is_Some (attrs r2 !! "cost_of_living")) df →
  compute_neighbours_costs_for_row h3_distance row df
  = Ok (ring_means grid_distance df row).
Proof.
  intros Hdist Hcol. unfold compute_neighbours_costs_for_row.
  rewrite !(compute_neighbours_col_ring row df _ "cost_of_living" Hdist)
    by (by apply ring_has_column_all).
  reflexivity.
Qed.

Lemma apply_rows_ring_means rows df :
  Forall (λ row, Forall (distance_agrees grid_distance h3_distance (hex_id row)) df) rows →
  Forall (λ r2, is_Some (attrs r2 !! "cost_of_living")) df →
  apply_rows (λ row, compute_neighbours_costs_for_row h3_distance row df) rows
  = Ok (ring_means grid_distance df <$> rows).
Proof.
  intros Hdist Hcol.
  induction rows as [|row rows IH]; [done|].
  apply Forall_cons in Hdist as [Hrow Hdist]. simpl.
  rewrite (compute_neighbours_costs_for_row_ring row df Hrow Hcol). simpl.
  by rewrite (IH Hdist).
Qed.

(** C7: for every centre row, [compute_neighbours_costs_for_row] returns the
    four results in the order of the distances 1, 2, 3, 4, the element for
    distance [d] being what [compute_neighbours_col] returns at [d] (the
    neighbour mean or [NaN]); applied to the rows of a table from first to
    last, the k-th output is the result of the k-th row. *)
Theorem neighbour_costs_in_distance_order rows df :
  Forall (λ row, Forall (distance_agrees grid_distance h3_distance (hex_id row)) df) rows →
  Forall (λ r2, is_Some (attrs r2 !! "cost_of_living")) df →
  Forall (λ row,
    compute_neighbours_costs_for_row h3_distance row df
      = Ok (ring_means grid_distance df row)
    ∧ ∀ (i : nat) (d : Z), [1; 2; 3; 4] !! i = Some d →
        ∃ x, ring_means grid_distance df row !! i = Some x
           ∧ compute_neighbours_col h3_distance row df d "cost_of_living" = Ok x
           ∧ x = neighbour_mean grid_distance (hex_id row) d "cost_of_living" df) rows
  ∧ apply_rows (λ row, compute_neighbours_costs_for_row h3_distance row df) rows
    = Ok (ring_means grid_distance df <$> rows)
  ∧ ∀ (k : nat) row, rows !! k = Some row →
      (ring_means grid_distance df <$> rows) !! k = Some (ring_means grid_distance df row).
Proof.
  intros Hdist Hcol. split; [|split].
  - apply Forall_forall. intros row Hrow.
    rewrite Forall_forall in Hdist. specialize (Hdist row Hrow).
    split; [by apply compute_neighbours_costs_for_row_ring|].
    intros i d Hi.
    exists (neighbour_mean grid_distance (hex_id row) d "cost_of_living" df).
    split; [|split; [|done]].
    + unfold ring_means. rewrite list_lookup_fmap, Hi. done.
    + apply compute_neighbours_col_ring; [done|by apply ring_has_column_all].
  - by apply apply_rows_ring_means.
  - intros k row Hk. by rewrite list_lookup_fmap, Hk.
Qed.

(** C8: for distances [d ≤ d'], the ring at [d] is contained in the ring at
    [d'], and the values the loop collects at [d] are a sub-list of those it
    collects at [d'], so the collected set never shrinks. *)
Theorem ring_monotone row df col d d' :
  Forall (distance_agrees grid_distance h3_distance (hex_id row)) df →
  Forall (ring_has_column grid_distance (hex_id row) d' col) df →
  d ≤ d' →
  neighbours grid_distance (hex_id row) d df
    `sublist_of` neighbours grid_distance (hex_id row) d' df
  ∧ (∀ r2, r2 ∈ neighbours grid_distance (hex_id row) d df →
           r2 ∈ neighbours grid_distance (hex_id row) d' df)
  ∧ ∃ costs costs',
      collect_costs h3_distance (hex_id row) df d col [] = Ok costs
      ∧ collect_costs h3_distance (hex_id row) df d' col [] = Ok costs'
      ∧ costs `sublist_of` costs'
      ∧ (length costs ≤ length costs')%nat.
Proof.
  intros Hdist Hcol' Hle.
  assert (Hcol : Forall (ring_has_column grid_distance (hex_id row) d col) df).
  { eapply Forall_impl; [exact Hcol'|]. intros r2 H Hin. apply H.
    by eapply in_ring_mono. }
  assert (Hsub : neighbours grid_distance (hex_id row) d df
                 `sublist_of` neighbours grid_distance (hex_id row) d' df).
  { unfold neighbours. clear Hdist Hcol Hcol'.
    induction df as [|r2 df IH]; [done|].
    rewrite !filter_cons.
    destruct (decide (in_ring grid_distance (hex_id row) d r2)) as [Hin|Hout].
    - rewrite decide_True by (by eapply in_ring_mono). by constructor.
    - case_decide; [by constructor|done]. }
  split; [exact Hsub|]. split.
  - intros r2 Hr2. by eapply elem_of_sublist.
  - eexists _, _.
    split; [apply (collect_costs_ring _ _ _ _ _ Hdist Hcol)|].
    split; [apply (collect_costs_ring _ _ _ _ _ Hdist Hcol')|].
    simpl.
    assert (values_of col (neighbours grid_distance (hex_id row) d df)
            `sublist_of` values_of col (neighbours grid_distance (hex_id row) d' df)) as Hv.
    { unfold values_of. clear -Hsub.
      induction Hsub as [|x l1 l2 Hs IH|x l1 l2 Hs IH]; simpl.
      - done.
      - destruct (attrs x !! col); [by constructor|done].
      - destruct (attrs x !! col); [by constructor|done]. }
    split; [exact Hv|]. by apply sublist_length.
Qed.

End AggregatorFacts.

Section DistanceErrors.

Variable h3_distance : string → string → result Z.

(** An exception of [h3_distance] leaves the loop at once. *)
Lemma collect_costs_raises c pre r2 post d col costs e :
  Forall (λ r, is_ok (h3_distance c (hex_id r)) = true) pre →
  Forall (λ r, is_Some (attrs r !! col)) pre →
  h3_distance c (hex_id r2) = Raise e →
  collect_costs h3_distance c (pre ++ r2 :: post) d col costs = Raise e.
Proof.
  intros Hok Hcol Hr2. revert costs.
  induction pre as [|r pre IH]; intros costs; simpl.
  { by rewrite Hr2. }
  apply Forall_cons in Hok as [Hr Hok].
  apply Forall_cons in Hcol as [[v Hv] Hcol].
  destruct (h3_distance c (hex_id r)) as [n|]; [|done]. simpl.
  unfold getitem. rewrite Hv. simpl.
  destruct (_ && _); by apply IH.
Qed.

Lemma collect_costs_no_result c df d col costs r2 :
  r2 ∈ df →
  is_ok (h3_distance c (hex_id r2)) = false →
  is_ok (collect_costs h3_distance c df d col costs) = false.
Proof.
  intros Hin Hfail. revert costs.
  induction df as [|r df IH]; intros costs; [by apply elem_of_nil in Hin|].
  simpl. apply elem_of_cons in Hin as [<-|Hin].
  { by destruct (h3_distance c (hex_id r2)). }
  destruct (h3_distance c (hex_id r)) as [n|]; [|done]. simpl.
  destruct (_ && _); [|by apply IH].
  destruct (getitem r col); [|done]. simpl. by apply IH.
Qed.

(** C9: [compute_neighbours_col] has no handler around [h3_distance]: when
    the distance to some row of the table raises, the call (and with it
    [compute_neighbours_costs_for_row]) raises and returns no result; the
    exception of the first such row is the one that propagates. *)
Theorem distance_error_propagates row pre r2 post d col e :
  h3_distance (hex_id row) (hex_id r2) = Raise e →
  is_ok (compute_neighbours_col h3_distance row (pre ++ r2 :: post) d col) = false
  ∧ is_ok (compute_neighbours_costs_for_row h3_distance row (pre ++ r2 :: post)) = false
  ∧ (Forall (λ r, is_ok (h3_distance (hex_id row) (hex_id r)) = true) pre →
     Forall (λ r, is_Some (attrs r !! col)) pre →
     compute_neighbours_col h3_distance row (pre ++ r2 :: post) d col = Raise e)
  ∧ (Forall (λ r, is_ok (h3_distance (hex_id row) (hex_id r)) = true) pre →
     Forall (λ r, is_Some (attrs r !! "cost_of_living")) pre →
     compute_neighbours_costs_for_row h3_distance row (pre ++ r2 :: post) = Raise e).
Proof.
  intros Hr2.
  assert (Hno : ∀ d' col', is_ok (compute_neighbours_col h3_distance row
                                    (pre ++ r2 :: post) d' col') = false).
  { intros d' col'. unfold compute_neighbours_col.
    pose proof (collect_costs_no_result (hex_id row) (pre ++ r2 :: post) d' col' [] r2) as H.
    destruct (collect_costs _ _ _ _ _ _); [|done].
    discriminate H; [set_solver|by rewrite Hr2]. }
  split; [apply Hno|]. split; [|split].
  - unfold compute_neighbours_costs_for_row.
    specialize (Hno 1 "cost_of_living").
    by destruct (compute_neighbours_col _ _ _ 1 _).
  - intros Hok Hcol. unfold compute_neighbours_col.
    by rewrite (collect_costs_raises _ _ _ _ _ _ _ e Hok Hcol Hr2).
  - intros Hok Hcol. unfold compute_neighbours_costs_for_row, compute_neighbours_col.
    by rewrite (collect_costs_raises _ _ _ _ 1 _ _ e Hok Hcol Hr2).
Qed.

End DistanceErrors.

(** ** The aggregator on the toy grid *)

Lemma compute_neighbours_col_mean_witness :
  Forall (distance_agrees toy_grid_distance toy_distance "A") table_AAB
  ∧ Forall (ring_has_column toy_grid_distance "A" 1 "cost_of_living") table_AAB
  ∧ compute_neighbours_col toy_distance (hex_row "A" 10) table_AAB 1 "cost_of_living"
    = Ok (Float 20).
Proof.
  assert (Hdist : Forall (distance_agrees toy_grid_distance toy_distance "A") table_AAB).
  { forall_elements; reflexivity. }
  assert (Hcol : Forall (ring_has_column toy_grid_distance "A" 1 "cost_of_living") table_AAB).
  { forall_elements; intros _; eexists; reflexivity. }
  split; [exact Hdist|]. split; [exact Hcol|].
  destruct (compute_neighbours_col_mean toy_distance toy_grid_distance
              (hex_row "A" 10) table_AAB 1 "cost_of_living" Hdist Hcol) as [Hmean _].
  rewrite Hmean. reflexivity.
Defined.

Lemma neighbour_costs_in_distance_order_witness :
  neighbor_means toy_distance table_ABCD
  = Ok [[Float 20; Float 40; Float 40; Float 40];
        [Float 35; Float 35; Float 35; Float 35];
        [Float 20; Float 15; Float 15; Float 15];
        [NaN; NaN; NaN; NaN]].
Proof.
  assert (Hdist : Forall (λ row, Forall (distance_agrees toy_grid_distance toy_distance
                                           (hex_id row)) table_ABCD) table_ABCD).
  { forall_elements; reflexivity. }
  assert (Hcol : Forall (λ r2, is_Some (attrs r2 !! "cost_of_living")) table_ABCD).
  { forall_elements; eexists; reflexivity. }
  destruct (neighbour_costs_in_distance_order toy_distance toy_grid_distance
              table_ABCD table_ABCD Hdist Hcol) as (_ & Happly & _).
  unfold neighbor_means. rewrite Happly. reflexivity.
Defined.

Lemma ring_monotone_witness :
  1 ≤ 2
  ∧ ∃ costs costs',
      collect_costs toy_distance "A" table_ABCD 1 "cost_of_living" [] = Ok costs
      ∧ collect_costs toy_distance "A" table_ABCD 2 "cost_of_living" [] = Ok costs'
      ∧ costs `sublist_of` costs'
      ∧ (length costs ≤ length costs')%nat.
Proof.
  split; [lia|].
  refine (proj2 (proj2 (ring_monotone toy_distance toy_grid_distance
                          (hex_row "A" 10) table_ABCD "cost_of_living" 1 2 _ _ _))).
  - forall_elements; reflexivity.
  - forall_elements; intros _; eexists; reflexivity.
  - lia.
Defined.

Lemma distance_error_propagates_witness :
  toy_distance "A" "unknown" = Raise (H3Error "invalid cell")
  ∧ compute_neighbours_col toy_distance (hex_row "A" 10) table_with_unknown 1
      "cost_of_living" = Raise (H3Error "invalid cell")
  ∧ is_ok (compute_neighbours_costs_for_row toy_distance (hex_row "A" 10)
             table_with_unknown) = false.
Proof.
  split; [reflexivity|].
  destruct (distance_error_propagates toy_distance (hex_row "A" 10)
              [hex_row "A" 10] (hex_row "unknown" 30) [hex_row "B" 20]
              1 "cost_of_living" (H3Error "invalid cell") eq_refl)
    as (_ & Hrow & Hcol & _).
  split; [|exact Hrow].
  apply Hcol.
  - forall_elements; reflexivity.
  - forall_elements; eexists; reflexivity.
Defined.

(** * Properties of the indexer *)

Section IndexerFacts.

Variable geo_to_h3 : pyval → pyval → Z → result string.

Lemma compute_h3_index_cell_of lat lon resolution :
  compute_h3_index geo_to_h3 lat lon resolution
  = Ok (cell_of geo_to_h3 lat lon resolution).
Proof.
  unfold compute_h3_index, cell_of, try_except.
  by destruct (geo_to_h3 lat lon resolution).
Qed.

(** C3: [compute_h3_index] returns a string on every input; the string is
    the sentinel ["unknown"] when [geo_to_h3] raises, and the cell that
    [geo_to_h3] returns otherwise. *)
Theorem compute_h3_index_never_raises lat lon resolution :
  (∃ s, compute_h3_index geo_to_h3 lat lon resolution = Ok s)
  ∧ (∀ e, geo_to_h3 lat lon resolution = Raise e →
          compute_h3_index geo_to_h3 lat lon resolution = Ok "unknown")
  ∧ (∀ cell, geo_to_h3 lat lon resolution = Ok cell →
          compute_h3_index geo_to_h3 lat lon resolution = Ok cell).
Proof.
  unfold compute_h3_index, try_except.
  destruct (geo_to_h3 lat lon resolution) as [cell|e].
  - split; [by eexists|]. split; [done|]. by intros ? [= <-].
  - split; [by eexists|]. split; [done|]. done.
Qed.

Lemma index_row_indexed (row : Series) :
  is_Some (row !! "lat") → is_Some (row !! "lon") →
  ∃ s, index_row geo_to_h3 row = Ok s
     ∧ <["h3_index" := VStr s]> row = indexed geo_to_h3 row.
Proof.
  intros [lat Hlat] [lon Hlon].
  exists (cell_of geo_to_h3 lat lon 8).
  unfold index_row, series_get, indexed. rewrite Hlat, Hlon. simpl.
  by rewrite compute_h3_index_cell_of.
Qed.

(** The new column of a chunk, row by row. *)
Lemma apply_axis1_indexed (df : list Series) :
  has_coordinates df →
  ∃ column, apply_axis1 (index_row geo_to_h3) df = Ok column
          ∧ assign_column df "h3_index" column = indexed geo_to_h3 <$> df.
Proof.
  unfold has_coordinates.
  induction df as [|row df IH]; intros Hc.
  { by exists []. }
  apply Forall_cons in Hc as [[Hlat Hlon] Hc].
  destruct (index_row_indexed row Hlat Hlon) as (s & Hs & Hrow).
  destruct (IH Hc) as (column & Hcol & Hdf).
  exists (s :: column). simpl. rewrite Hs. simpl. rewrite Hcol. simpl.
  split; [done|]. unfold assign_column in *. simpl. by rewrite Hrow, Hdf.
Qed.

Lemma has_coordinates_take n rows :
  has_coordinates rows → has_coordinates (take n rows).
Proof. apply Forall_take. Qed.

Lemma has_coordinates_drop n rows :
  has_coordinates rows → has_coordinates (drop n rows).
Proof. apply Forall_drop. Qed.

Lemma written_tables_app evs1 evs2 :
  written_tables (evs1 ++ evs2) = written_tables evs1 ++ written_tables evs2.
Proof. unfold written_tables. by rewrite omap_app, concat_app. Qed.

(** One chunk of a call in which no operation fails and every chunk has
    the schema of the first. *)
Lemma process_chunk_uniform (E : env) rows chunk k st :
  input_rows E = Some rows → io_succeeds E → has_coordinates rows →
  uniform_schema E geo_to_h3 rows chunk →
  (k * chunk < length rows)%nat →
  chunks_done geo_to_h3 E rows chunk k st →
  ∃ st',
    process_chunk geo_to_h3 E (Z.of_nat chunk) (Z.of_nat (k * chunk)) st
    = (Ok tt, st')
    ∧ chunks_done geo_to_h3 E rows chunk (S k) st'.
Proof.
  intros Hin (Hfetch & Hopen & Hwrite & _) Hc Huniform Hk (Hout & Hwritten & Hw).
  set (df := take chunk (drop (k * chunk) rows)).
  destruct (apply_axis1_indexed df) as (column & Hcol & Hassign).
  { by apply has_coordinates_take, has_coordinates_drop. }
  assert (Hnext : indexed geo_to_h3 <$> take (S k * chunk) rows
                  = (indexed geo_to_h3 <$> take (k * chunk) rows)
                    ++ (indexed geo_to_h3 <$> df)).
  { rewrite <- fmap_app. unfold df. rewrite take_take_drop.
    do 2 f_equal. lia. }
  assert (Hschema : table_schema E (indexed geo_to_h3 <$> df)
                    = table_schema E (chunk_table geo_to_h3 rows chunk 0)).
  { apply (Huniform k Hk). }
  destruct st as [w f tr].
  unfold chunks_done, output_rows, rows_written in *. simpl in *.
  unfold process_chunk, fetchdf. rewrite Hin, Hfetch.
  unfold mbind, io_bind, lift, emit, mret, io_ret. simpl.
  rewrite !Nat2Z.id. fold df. rewrite Hcol, Hassign.
  unfold get_writer, write_table, parquet_writer, set_writer, set_out_file,
    get_out_file, print, emit, skip, mbind, io_bind, mret, io_ret. simpl.
  destruct w as [schema|]; simpl.
  - destruct Hw as (Hfile & Hk0 & ->).
    rewrite decide_True by exact Hschema. simpl. rewrite Hwrite.
    eexists. split; [reflexivity|]. simpl.
    rewrite Hnext, <- Hout. split; [done|]. split; [|by split; [eexists|]].
    rewrite !written_tables_app, Hwritten, Hout.
    unfold written_tables. simpl. by rewrite !app_nil_r.
  - destruct Hw as [-> ->]. simpl in *. rewrite Hopen. simpl.
    rewrite decide_True by done. simpl. rewrite Hwrite.
    eexists. split; [reflexivity|]. simpl.
    rewrite Hnext. split; [done|]. split; [|by split; [eexists|]].
    rewrite !written_tables_app, Hwritten.
    unfold written_tables. simpl. by rewrite !app_nil_r.
Qed.

(** The chunks [k], [k+1], ..., [k+m-1] of such a call. *)
Lemma for_each_chunks_uniform (E : env) rows chunk m k st :
  input_rows E = Some rows → io_succeeds E → has_coordinates rows →
  uniform_schema E geo_to_h3 rows chunk →
  (∀ i : nat, (i < k + m)%nat → (i * chunk < length rows)%nat) →
  chunks_done geo_to_h3 E rows chunk k st →
  ∃ st',
    for_each ((λ i : nat, 0 + Z.of_nat i * Z.of_nat chunk) <$> seq k m)
      (process_chunk geo_to_h3 E (Z.of_nat chunk)) st
    = (Ok tt, st')
    ∧ chunks_done geo_to_h3 E rows chunk (k + m) st'.
Proof.
  intros Hin Hio Hc Huniform. revert k st.
  induction m as [|m IH]; intros k st Hrange Hdone; simpl.
  { exists st. split; [done|]. by rewrite Nat.add_0_r. }
  destruct (process_chunk_uniform E rows chunk k st Hin Hio Hc Huniform)
    as (st1 & Hstep & Hdone1); [apply Hrange; lia|done|].
  destruct (IH (S k) st1) as (st2 & Hrest & Hdone2);
    [intros i Hi; apply Hrange; lia|done|].
  exists st2. split.
  - unfold mbind, io_bind.
    replace (0 + Z.of_nat k * Z.of_nat chunk) with (Z.of_nat (k * chunk)) by lia.
    by rewrite Hstep.
  - by replace (k + S m)%nat with (S k + m)%nat by lia.
Qed.

(** With a positive chunk size the chunks cover the table. *)
Lemma chunks_cover (n cs : Z) :
  0 ≤ n → 0 < cs →
  (Z.to_nat n ≤ Z.to_nat (range_len 0 n cs) * Z.to_nat cs)%nat.
Proof.
  intros Hn Hcs. unfold range_len.
  destruct (Z.ltb_spec 0 cs) as [_|?]; [|lia].
  replace (n - 0 + cs - 1) with (n + cs - 1) by lia.
  pose proof (Z.div_mod (n + cs - 1) cs) as Hdm.
  pose proof (Z.mod_pos_bound (n + cs - 1) cs Hcs) as Hmod.
  assert (0 ≤ (n + cs - 1) / cs) by (apply Z.div_pos; lia).
  rewrite Z.max_r by done.
  rewrite <- Z2Nat.inj_mul by lia. apply Z2Nat.inj_le; nia.
Qed.

Lemma range_len_nonempty (n cs : Z) :
  0 < n → 0 < cs → (0 < Z.to_nat (range_len 0 n cs))%nat.
Proof.
  intros Hn Hcs. pose proof (chunks_cover n cs) as H. lia.
Qed.

Lemma range_len_empty (cs : Z) : cs ≠ 0 → range_len 0 0 cs = 0.
Proof.
  intros Hcs. unfold range_len.
  destruct (Z.ltb_spec 0 cs) as [Hpos|Hneg].
  - replace (0 - 0 + cs - 1) with (cs - 1) by lia.
    rewrite Z.div_small by lia. done.
  - replace (0 - 0 - cs - 1) with (- cs - 1) by lia.
    rewrite Z.div_small by lia. done.
Qed.

Lemma py_range_empty (cs : Z) : cs ≠ 0 → py_range 0 0 cs = Ok [].
Proof.
  intros Hcs. unfold py_range.
  destruct (Z.eqb_spec cs 0) as [?|_]; [done|].
  by rewrite (range_len_empty cs Hcs).
Qed.

(** Every offset of the loop lies inside the table. *)
Lemma offsets_in_range (n cs : Z) (i : nat) :
  0 ≤ n → 0 < cs →
  (i < Z.to_nat (range_len 0 n cs))%nat →
  (i * Z.to_nat cs < Z.to_nat n)%nat.
Proof.
  intros Hn Hcs. unfold range_len.
  destruct (Z.ltb_spec 0 cs) as [_|?]; [|lia].
  replace (n - 0 + cs - 1) with (n + cs - 1) by lia.
  pose proof (Z.div_mod (n + cs - 1) cs) as Hdm.
  pose proof (Z.mod_pos_bound (n + cs - 1) cs Hcs) as Hmod.
  assert (0 ≤ (n + cs - 1) / cs) by (apply Z.div_pos; lia).
  rewrite Z.max_r by done. intros Hi.
  apply Nat2Z.inj_lt. rewrite Nat2Z.inj_mul, !Z2Nat.id by lia.
  assert (Z.of_nat i + 1 ≤ (n + cs - 1) / cs) by lia. nia.
Qed.

(** A call in which no operation fails and every chunk has the schema of
    the first, on rows that have coordinates. *)
Lemma run_uniform (E : env) rows cs :
  input_rows E = Some rows → io_succeeds E → has_coordinates rows → 0 < cs →
  uniform_schema E geo_to_h3 rows (Z.to_nat cs) →
  ∃ st,
    run geo_to_h3 E cs = (Ok tt, st)
    ∧ output_rows st = indexed geo_to_h3 <$> rows
    ∧ rows_written st = indexed geo_to_h3 <$> rows
    ∧ out_file st = match rows with
                    | [] => None
                    | _ :: _ => Some (indexed geo_to_h3 <$> rows)
                    end.
Proof.
  intros Hin Hio Hc Hcs Huniform.
  set (n := Z.of_nat (length rows)).
  set (chunk := Z.to_nat cs).
  set (m := Z.to_nat (range_len 0 n cs)).
  set (st0 := {| writer := None; out_file := None;
                 trace := [EConnect; ECountRows; EPrint (TotalRows n)] |}).
  assert (Hdone0 : chunks_done geo_to_h3 E rows chunk 0 st0) by done.
  destruct (for_each_chunks_uniform E rows chunk m 0 st0 Hin Hio Hc Huniform)
    as (st1 & Hloop & Hout & Hwritten & Hw); [|done|].
  { intros i Hi. pose proof (offsets_in_range n cs i) as Hoff.
    unfold m, chunk, n in *. lia. }
  assert (Hall : take ((0 + m) * chunk) rows = rows).
  { apply take_ge. pose proof (chunks_cover n cs). unfold m, chunk, n in *. lia. }
  rewrite Hall in Hout, Hwritten.
  assert (Hbody : chunk_loop geo_to_h3 E cs n st0 = (Ok tt, st1)).
  { unfold chunk_loop, py_range.
    destruct (Z.eqb_spec cs 0) as [?|_]; [lia|].
    unfold mbind at 1, io_bind, lift. fold m.
    replace cs with (Z.of_nat chunk) by (unfold chunk; lia). exact Hloop. }
  unfold run, process_file_with_h3, duckdb_connect, count_rows. rewrite Hin.
  unfold mbind, io_bind, emit, print, emit, set_writer, mret, io_ret. simpl.
  fold n. fold st0. unfold try_finally. rewrite Hbody.
  destruct st1 as [w f tr]. unfold output_rows, rows_written in *. simpl in *.
  destruct Hio as (_ & _ & _ & Hclose).
  unfold cleanup, get_writer, writer_close, conn_close, print, emit, skip,
    mbind, io_bind, mret, io_ret. simpl. rewrite Hclose.
  assert (Hfile : f = match rows with
                      | [] => None
                      | _ :: _ => Some (indexed geo_to_h3 <$> rows)
                      end).
  { destruct w as [schema|].
    - destruct Hw as ([out ->] & Hm & _). simpl in Hout. subst out.
      destruct rows; [|done].
      exfalso. apply Hm. unfold m, n. simpl. rewrite range_len_empty by lia. done.
    - destruct Hw as [-> Hm]. destruct rows as [|row rows]; [done|].
      pose proof (range_len_nonempty n cs). unfold m, n in *. simpl length in *. lia. }
  destruct w; simpl; eexists; (split; [reflexivity|]); simpl;
    (split; [done|]); (split; [|done]);
    rewrite !written_tables_app, Hwritten; unfold written_tables; simpl;
    by rewrite !app_nil_r.
Qed.

Lemma no_faults_io_succeeds rows : io_succeeds (no_faults rows).
Proof. by repeat split. Qed.

Lemma no_faults_uniform_schema rows chunk :
  uniform_schema (no_faults rows) geo_to_h3 rows chunk.
Proof. by intros k _. Qed.

(** A call in which nothing fails, on rows that have coordinates. *)
Lemma run_no_faults rows cs :
  has_coordinates rows → 0 < cs →
  ∃ st,
    run geo_to_h3 (no_faults rows) cs = (Ok tt, st)
    ∧ output_rows st = indexed geo_to_h3 <$> rows
    ∧ rows_written st = indexed geo_to_h3 <$> rows
    ∧ out_file st = match rows with
                    | [] => None
                    | _ :: _ => Some (indexed geo_to_h3 <$> rows)
                    end.
Proof.
  intros Hc Hcs.
  apply (run_uniform (no_faults rows) rows cs eq_refl
           (no_faults_io_succeeds rows) Hc Hcs (no_faults_uniform_schema rows _)).
Qed.

(** C2, for calls in which every chunk is given the schema of the first:
    with rows that have coordinates, no failing operation and, at both chunk
    sizes, no chunk whose schema differs from the one the writer was created
    with, the call succeeds for both positive chunk sizes and leaves the same
    output file: the same rows, in the same order, with the same [h3_index]
    value in every row. *)
Theorem chunk_size_invariance (E : env) rows cs1 cs2 :
  input_rows E = Some rows → io_succeeds E → has_coordinates rows →
  0 < cs1 → 0 < cs2 →
  uniform_schema E geo_to_h3 rows (Z.to_nat cs1) →
  uniform_schema E geo_to_h3 rows (Z.to_nat cs2) →
  let r1 := run geo_to_h3 E cs1 in
  let r2 := run geo_to_h3 E cs2 in
  fst r1 = Ok tt ∧ fst r2 = Ok tt
  ∧ out_file (snd r1) = out_file (snd r2)
  ∧ rows_written (snd r1) = rows_written (snd r2)
  ∧ output_rows (snd r1) = indexed geo_to_h3 <$> rows
  ∧ ∀ i : nat,
      (output_rows (snd r1) !! i) ≫= (λ out : Series, out !! "h3_index")
      = (output_rows (snd r2) !! i) ≫= (λ out : Series, out !! "h3_index").
Proof.
  intros Hin Hio Hc H1 H2 Hu1 Hu2.
  destruct (run_uniform E rows cs1 Hin Hio Hc H1 Hu1) as (st1 & Hr1 & Ho1 & Hw1 & Hf1).
  destruct (run_uniform E rows cs2 Hin Hio Hc H2 Hu2) as (st2 & Hr2 & Ho2 & Hw2 & Hf2).
  simpl. rewrite Hr1, Hr2. simpl.
  rewrite Hf1, Hf2, Hw1, Hw2, Ho1, Ho2. done.
Qed.

(** C4, for calls in which every chunk is given the schema of the first:
    with rows that have coordinates and no failing operation, for every
    positive chunk size at which no chunk's schema differs from the one the
    writer was created with, the call writes as many rows as the input has,
    and the i-th row of the output is the i-th row of the input with its
    other columns unchanged. *)
Theorem output_row_count (E : env) rows cs :
  input_rows E = Some rows → io_succeeds E → has_coordinates rows → 0 < cs →
  uniform_schema E geo_to_h3 rows (Z.to_nat cs) →
  let r := run geo_to_h3 E cs in
  fst r = Ok tt
  ∧ length (rows_written (snd r)) = length rows
  ∧ length (output_rows (snd r)) = length rows
  ∧ ∀ (i : nat) (row : Series), rows !! i = Some row →
      ∃ out : Series, output_rows (snd r) !! i = Some out
        ∧ ∀ label, label ≠ "h3_index" → out !! label = row !! label.
Proof.
  intros Hin Hio Hc Hcs Hu.
  destruct (run_uniform E rows cs Hin Hio Hc Hcs Hu) as (st & Hr & Ho & Hw & _).
  simpl. rewrite Hr. simpl. rewrite Hw, Ho, !length_fmap.
  split; [done|]. split; [done|]. split; [done|].
  intros i row Hi. exists (indexed geo_to_h3 row).
  rewrite list_lookup_fmap, Hi. split; [done|].
  intros label Hne. unfold indexed.
  destruct (row !! "lat"); [|done]. destruct (row !! "lon"); [|done].
  by rewrite lookup_insert_ne.
Qed.

(** C5, as the code has it: the column that a record gains is named
    [h3_index]; it holds the string that [geo_to_h3] returns for the
    coordinates of the record at resolution 8, or ["unknown"] when
    [geo_to_h3] raises. *)
Theorem records_gain_h3_index rows cs :
  has_coordinates rows → 0 < cs →
  Forall2 (λ (row out : Series),
    ∃ lat lon s,
      row !! "lat" = Some lat ∧ row !! "lon" = Some lon
      ∧ out = <["h3_index" := VStr s]> row
      ∧ out !! "h3_index" = Some (VStr s)
      ∧ (geo_to_h3 lat lon 8 = Ok s
         ∨ (∃ e, geo_to_h3 lat lon 8 = Raise e) ∧ s = "unknown"))
    rows (output_rows (snd (run geo_to_h3 (no_faults rows) cs))).
Proof.
  intros Hc Hcs.
  destruct (run_no_faults rows cs Hc Hcs) as (st & Hr & Ho & _).
  rewrite Hr. simpl. rewrite Ho. clear Hr Ho.
  apply Forall2_fmap_r, Forall_Forall2_diag.
  eapply Forall_impl; [exact Hc|].
  intros row [[lat Hlat] [lon Hlon]]. simpl.
  exists lat, lon, (cell_of geo_to_h3 lat lon 8).
  unfold indexed. rewrite Hlat, Hlon.
  split; [done|]. split; [done|]. split; [done|].
  split; [by rewrite lookup_insert_eq|].
  unfold cell_of. destruct (geo_to_h3 lat lon 8) as [cell|e]; [by left|].
  right. split; [by exists e|done].
Qed.

Lemma run_empty_input (E : env) cs :
  input_rows E = Some [] → cs ≠ 0 →
  run geo_to_h3 E cs
  = (Ok tt, {| writer := None; out_file := None;
               trace := [EConnect; ECountRows; EPrint (TotalRows 0);
                         ECloseConn; EPrint ProcessingComplete] |}).
Proof.
  intros Hin Hcs.
  unfold run, process_file_with_h3, duckdb_connect, count_rows. rewrite Hin.
  unfold try_finally, chunk_loop, print, emit, set_writer, lift,
    mbind, io_bind, mret, io_ret.
  cbn -[py_range]. change (Z.of_nat 0) with 0. by rewrite (py_range_empty cs Hcs).
Qed.

(** C10, for a chunk size other than zero: on an input without rows the
    call fetches no chunk, opens no writer, creates no output file, closes
    the connection once and returns. *)
Theorem empty_input_no_output (E : env) cs :
  input_rows E = Some [] → cs ≠ 0 →
  let r := run geo_to_h3 E cs in
  fst r = Ok tt
  ∧ count_events is_fetch (snd r) = 0%nat
  ∧ count_events is_open_writer (snd r) = 0%nat
  ∧ writer (snd r) = None
  ∧ out_file (snd r) = None
  ∧ count_events is_close_conn (snd r) = 1%nat
  ∧ trace (snd r) = [EConnect; ECountRows; EPrint (TotalRows 0);
                     ECloseConn; EPrint ProcessingComplete].
Proof.
  intros Hin Hcs. simpl. by rewrite (run_empty_input E cs Hin Hcs).
Qed.

(** C6, at an input file that cannot be read: the row count raises before
    the [try] block is entered, so the call ends with the connection opened
    and never closed. *)
Theorem unreadable_input_skips_cleanup cs :
  let r := run geo_to_h3 unreadable_input cs in
  fst r = Raise (IOError "cannot read input file")
  ∧ count_events is_connect (snd r) = 1%nat
  ∧ count_events is_close_conn (snd r) = 0%nat.
Proof. done. Qed.

Lemma count_in_app p evs1 evs2 :
  count_in p (evs1 ++ evs2) = (count_in p evs1 + count_in p evs2)%nat.
Proof. unfold count_in. by rewrite List.filter_app, length_app. Qed.

(** Inside the [try] block nothing is closed, and the writer is opened at
    most once, whatever fails. *)
Lemma process_chunk_holds (E : env) cs offset st :
  resources_held st →
  resources_held (snd (process_chunk geo_to_h3 E cs offset st)).
Proof.
  destruct st as [w f tr]. unfold resources_held, count_events. simpl.
  intros (Hopen & Hcw & Hcc & Hcon).
  unfold_io. simpl.
  repeat (case_match; simpl in *; simplify_eq);
    rewrite ?count_in_app; simpl; rewrite ?Hopen, ?Hcw, ?Hcc, ?Hcon; done.
Qed.

Lemma for_each_holds (E : env) cs offsets st :
  resources_held st →
  resources_held (snd (for_each offsets (process_chunk geo_to_h3 E cs) st)).
Proof.
  revert st. induction offsets as [|offset offsets IH]; intros st Hst; [done|].
  simpl. unfold mbind, io_bind.
  pose proof (process_chunk_holds E cs offset st Hst) as Hstep.
  destruct (process_chunk geo_to_h3 E cs offset st) as [[[]|e] st1]; simpl in *.
  - by apply IH.
  - done.
Qed.

Lemma chunk_loop_holds (E : env) cs total_rows st :
  resources_held st →
  resources_held (snd (chunk_loop geo_to_h3 E cs total_rows st)).
Proof.
  intros Hst. unfold chunk_loop, mbind, io_bind, lift.
  destruct (py_range 0 total_rows cs) as [offsets|e]; [|done].
  by apply for_each_holds.
Qed.

(** The state in which the [try] block is entered. *)
Lemma run_try_finally (E : env) cs rows :
  input_rows E = Some rows →
  run geo_to_h3 E cs
  = try_finally (chunk_loop geo_to_h3 E cs (Z.of_nat (length rows))) (cleanup E)
      {| writer := None; out_file := None;
         trace := [EConnect; ECountRows; EPrint (TotalRows (Z.of_nat (length rows)))] |}.
Proof.
  intros Hin. unfold run, process_file_with_h3, duckdb_connect, count_rows.
  rewrite Hin. reflexivity.
Qed.

(** X1: once the row count is known and unless [writer.close()] itself raises:
    on every outcome of the loop the connection is closed exactly once, the
    writer is closed exactly when it was opened (at most once), and the
    outcome of the loop is the outcome of the call. *)
Lemma cleanup_after_loop (E : env) cs rows :
  input_rows E = Some rows →
  close_fails E = false →
  let st0 := {| writer := None; out_file := None;
                trace := [EConnect; ECountRows;
                          EPrint (TotalRows (Z.of_nat (length rows)))] |} in
  let r := run geo_to_h3 E cs in
  fst r = fst (chunk_loop geo_to_h3 E cs (Z.of_nat (length rows)) st0)
  ∧ count_events is_connect (snd r) = 1%nat
  ∧ count_events is_close_conn (snd r) = 1%nat
  ∧ count_events is_close_writer (snd r) = count_events is_open_writer (snd r)
  ∧ (count_events is_open_writer (snd r) ≤ 1)%nat.
Proof.
  intros Hin Hclose st0 r. unfold r. rewrite (run_try_finally E cs rows Hin).
  fold st0. unfold try_finally.
  assert (Hst0 : resources_held st0) by done.
  pose proof (chunk_loop_holds E cs (Z.of_nat (length rows)) st0 Hst0) as Hheld.
  destruct (chunk_loop geo_to_h3 E cs (Z.of_nat (length rows)) st0) as [res [w f tr]].
  unfold resources_held, count_events in *. simpl in *.
  destruct Hheld as (Hopen & Hcw & Hcc & Hcon).
  unfold_io. rewrite Hclose.
  destruct w; simpl; rewrite ?count_in_app; simpl;
    rewrite ?Hopen, ?Hcw, ?Hcc, ?Hcon; unfold count_in; simpl; repeat split; lia.
Qed.

End IndexerFacts.

(** ** The indexer on concrete inputs *)

Lemma five_points_have_coordinates : has_coordinates five_points.
Proof. unfold has_coordinates. forall_elements; split; eexists; reflexivity. Defined.

Lemma three_points_have_coordinates : has_coordinates three_points.
Proof. unfold has_coordinates. forall_elements; split; eexists; reflexivity. Defined.

Lemma compute_h3_index_never_raises_witness :
  toy_geo_to_h3 (VFloat 200) (VFloat 0) 8 = Raise (H3Error "coordinate out of range")
  ∧ compute_h3_index toy_geo_to_h3 (VFloat 200) (VFloat 0) 8 = Ok "unknown"
  ∧ compute_h3_index toy_geo_to_h3 VNull VNull 8 = Ok "unknown"
  ∧ compute_h3_index toy_geo_to_h3 (VFloat 10) (VFloat 20) 8 = Ok "NE".
Proof.
  split; [reflexivity|]. split; [|split].
  - exact (proj1 (proj2 (compute_h3_index_never_raises toy_geo_to_h3
                           (VFloat 200) (VFloat 0) 8)) _ eq_refl).
  - exact (proj1 (proj2 (compute_h3_index_never_raises toy_geo_to_h3
                           VNull VNull 8)) _ eq_refl).
  - exact (proj2 (proj2 (compute_h3_index_never_raises toy_geo_to_h3
                           (VFloat 10) (VFloat 20) 8)) _ eq_refl).
Defined.

Lemma typed_input_io_succeeds rows : io_succeeds (typed_input rows).
Proof. by repeat split. Defined.

Lemma five_points_uniform_at_2 :
  uniform_schema (typed_input five_points) toy_geo_to_h3 five_points (Z.to_nat 2).
Proof.
  intros k Hk. destruct k as [|[|[|k]]]; [reflexivity..|].
  simpl in Hk. lia.
Defined.

Lemma five_points_uniform_at_10000 :
  uniform_schema (typed_input five_points) toy_geo_to_h3 five_points (Z.to_nat 10000).
Proof.
  intros k Hk. destruct k as [|k]; [reflexivity|].
  simpl length in Hk. lia.
Defined.

Lemma chunk_size_invariance_witness :
  has_coordinates five_points ∧ 0 < 2 ∧ 0 < 10000
  ∧ fst (run toy_geo_to_h3 (typed_input five_points) 2) = Ok tt
  ∧ out_file (snd (run toy_geo_to_h3 (typed_input five_points) 2))
    = out_file (snd (run toy_geo_to_h3 (typed_input five_points) 10000)).
Proof.
  split; [exact five_points_have_coordinates|]. split; [lia|]. split; [lia|].
  destruct (chunk_size_invariance toy_geo_to_h3 (typed_input five_points) five_points
              2 10000 eq_refl (typed_input_io_succeeds five_points)
              five_points_have_coordinates eq_refl eq_refl
              five_points_uniform_at_2 five_points_uniform_at_10000)
    as (Hr1 & _ & Hfile & _).
  split; [exact Hr1|exact Hfile].
Defined.

Lemma output_row_count_witness :
  has_coordinates five_points ∧ 0 < 2
  ∧ length (output_rows (snd (run toy_geo_to_h3 (typed_input five_points) 2))) = 5%nat.
Proof.
  split; [exact five_points_have_coordinates|]. split; [lia|].
  exact (proj1 (proj2 (proj2 (output_row_count toy_geo_to_h3 (typed_input five_points)
                                five_points 2 eq_refl
                                (typed_input_io_succeeds five_points)
                                five_points_have_coordinates eq_refl
                                five_points_uniform_at_2)))).
Defined.

(** C2, as stated for every input, fails: on four rows whose [name] column
    has strings in the first chunk of two and only nulls in the second, the
    second table has not the schema the writer was created with; at chunk
    size 2 [write_table] raises [ValueError] after two rows, at chunk size
    10000 the call writes the four rows. *)
Lemma schema_mismatch_breaks_invariance :
  has_coordinates names_then_nulls
  ∧ fst (run toy_geo_to_h3 (typed_input names_then_nulls) 2)
    = Raise (ValueError "Table schema does not match schema used to create file")
  ∧ length (output_rows (snd (run toy_geo_to_h3 (typed_input names_then_nulls) 2))) = 2%nat
  ∧ fst (run toy_geo_to_h3 (typed_input names_then_nulls) 10000) = Ok tt
  ∧ length (output_rows (snd (run toy_geo_to_h3 (typed_input names_then_nulls) 10000)))
    = 4%nat
  ∧ out_file (snd (run toy_geo_to_h3 (typed_input names_then_nulls) 2))
    ≠ out_file (snd (run toy_geo_to_h3 (typed_input names_then_nulls) 10000)).
Proof.
  split. { unfold has_coordinates. forall_elements; split; eexists; reflexivity. }
  split; [vm_compute; reflexivity|]. split; [vm_compute; reflexivity|].
  split; [vm_compute; reflexivity|]. split; [vm_compute; reflexivity|].
  intros Heq. apply (f_equal (λ f, length (default [] f))) in Heq.
  vm_compute in Heq. discriminate Heq.
Qed.

(** C4, as stated for every input, fails on the same input: at chunk size 2
    the call raises at the second chunk and two of the four rows are
    written. *)
Lemma schema_mismatch_drops_rows :
  has_coordinates names_then_nulls
  ∧ length names_then_nulls = 4%nat
  ∧ fst (run toy_geo_to_h3 (typed_input names_then_nulls) 2)
    = Raise (ValueError "Table schema does not match schema used to create file")
  ∧ length (rows_written (snd (run toy_geo_to_h3 (typed_input names_then_nulls) 2))) = 2%nat
  ∧ length (output_rows (snd (run toy_geo_to_h3 (typed_input names_then_nulls) 2))) = 2%nat.
Proof.
  split. { unfold has_coordinates. forall_elements; split; eexists; reflexivity. }
  repeat split; vm_compute; reflexivity.
Qed.

Lemma records_gain_h3_index_witness :
  has_coordinates three_points ∧ 0 < 2
  ∧ ∃ out : Series,
      output_rows (snd (run toy_geo_to_h3 (no_faults three_points) 2)) !! 1%nat = Some out
      ∧ out !! "h3_index" = Some (VStr "unknown").
Proof.
  split; [exact three_points_have_coordinates|]. split; [lia|].
  pose proof (records_gain_h3_index toy_geo_to_h3 three_points 2
                three_points_have_coordinates eq_refl) as Hgain.
  destruct (Forall2_lookup_l _ _ _ 1%nat (point 200 0) Hgain eq_refl)
    as (out & Hout & lat & lon & s & Hlat & Hlon & _ & Hh3 & Hs).
  exists out. split; [exact Hout|]. rewrite Hh3.
  vm_compute in Hlat, Hlon. injection Hlat as <-. injection Hlon as <-.
  destruct Hs as [Hok|[_ ->]]; [discriminate Hok|reflexivity].
Defined.

(** C5, as the specification words it, fails: the rows of the output have
    no column [hex_index]; the cell is under [h3_index]. *)
Lemma no_hex_index_column :
  ∃ out : Series,
    output_rows (snd (run toy_geo_to_h3 (no_faults three_points) 2)) !! 0%nat = Some out
    ∧ out !! "hex_index" = None
    ∧ out !! "h3_index" = Some (VStr "NE").
Proof. eexists. split; [reflexivity|]. split; reflexivity. Qed.

Lemma empty_input_no_output_witness :
  input_rows (no_faults []) = Some [] ∧ 5 ≠ 0
  ∧ fst (run toy_geo_to_h3 (no_faults []) 5) = Ok tt
  ∧ out_file (snd (run toy_geo_to_h3 (no_faults []) 5)) = None
  ∧ count_events is_close_conn (snd (run toy_geo_to_h3 (no_faults []) 5)) = 1%nat.
Proof.
  assert (Hcs : 5 ≠ 0) by discriminate.
  destruct (empty_input_no_output toy_geo_to_h3 (no_faults []) 5 eq_refl Hcs)
    as (Hr & _ & _ & _ & Hf & Hc & _).
  split; [reflexivity|]. split; [exact Hcs|].
  split; [exact Hr|]. split; [exact Hf|exact Hc].
Defined.

(** C10, as stated for every chunk size, fails at chunk size 0: on an input
    without rows [range(0, 0, 0)] raises [ValueError], which leaves the call
    after the clean-up. *)
Lemma zero_chunk_size_raises :
  input_rows (no_faults []) = Some []
  ∧ fst (run toy_geo_to_h3 (no_faults []) 0)
    = Raise (ValueError "range() arg 3 must not be zero")
  ∧ fst (run toy_geo_to_h3 (no_faults []) 0) ≠ Ok tt.
Proof. split; [reflexivity|]. split; [reflexivity|]. discriminate. Qed.

(** A second way past the clean-up: when [writer.close()] raises, the
    [finally] block ends before [conn.close()]. *)
Lemma close_failure_skips_conn_close :
  let r := run toy_geo_to_h3 (close_failure three_points) 2 in
  fst r = Raise (IOError "close failed")
  ∧ count_events is_open_writer (snd r) = 1%nat
  ∧ count_events is_close_writer (snd r) = 0%nat
  ∧ count_events is_close_conn (snd r) = 0%nat.
Proof. vm_compute. done. Qed.

(** When [writer.close()] raises the file is left without footer: the rows
    handed to the writer cannot be read back. *)
Lemma close_failure_leaves_unreadable_file :
  let r := run toy_geo_to_h3 (close_failure three_points) 2 in
  length (rows_written (snd r)) = 3%nat
  ∧ readable_rows (snd r) = None.
Proof. vm_compute. done. Qed.

(** A failure in the middle of the loop: the second chunk cannot be written;
    both resources are closed once and the error leaves the call. *)
Lemma write_failure_is_cleaned_up :
  let r := run toy_geo_to_h3 (write_failure five_points 2) 2 in
  fst r = Raise (IOError "write failed")
  ∧ count_events is_open_writer (snd r) = 1%nat
  ∧ count_events is_close_writer (snd r) = 1%nat
  ∧ count_events is_close_conn (snd r) = 1%nat
  ∧ length (output_rows (snd r)) = 2%nat.
Proof. vm_compute. done. Qed.

(** * Further properties of the aggregator *)

Section AggregatorEdges.

Variable h3_distance : string → string → result Z.

(** Rows outside the range leave the accumulator as it is, and their
    attribute is never read. *)
Lemma collect_costs_out_of_range c df d col costs :
  Forall (λ r2, ∃ n, h3_distance c (hex_id r2) = Ok n ∧ (n ≤ 0 ∨ d < n)) df →
  collect_costs h3_distance c df d col costs = Ok costs.
Proof.
  intros Hout. induction Hout as [|r2 df (n & Hn & Hrange) _ IH]; [done|].
  simpl. rewrite Hn. simpl.
  destruct (Z.ltb_spec 0 n), (Z.leb_spec n d); simpl; try exact IH; lia.
Qed.

(** X10: when no row of the table is at a distance in (0, d] from the
    centre, [compute_neighbours_col] returns [NaN], and it does so without
    reading the attribute column (which may be missing). *)
Theorem no_row_in_range_nan row df d col :
  Forall (λ r2, ∃ n, h3_distance (hex_id row) (hex_id r2) = Ok n ∧ (n ≤ 0 ∨ d < n)) df →
  compute_neighbours_col h3_distance row df d col = Ok NaN.
Proof.
  intros Hout. unfold compute_neighbours_col.
  by rewrite (collect_costs_out_of_range _ _ _ _ _ Hout).
Qed.

(** X11: with a maximal distance of zero or less no row can qualify: the
    result is [NaN] whenever the distances themselves can be computed. *)
Theorem nonpositive_distance_nan row df d col :
  d ≤ 0 →
  Forall (λ r2, is_ok (h3_distance (hex_id row) (hex_id r2)) = true) df →
  compute_neighbours_col h3_distance row df d col = Ok NaN.
Proof.
  intros Hd Hok. unfold compute_neighbours_col.
  rewrite collect_costs_out_of_range; [done|].
  eapply Forall_impl; [exact Hok|]. intros r2 Hr2. simpl in Hr2.
  destruct (h3_distance (hex_id row) (hex_id r2)) as [n|]; [|done].
  exists n. split; [done|]. lia.
Qed.

(** X12: a row with no other row within distance 4 gets [NaN] for each of
    the four distances. *)
Theorem isolated_row_all_nan row df :
  Forall (λ r2, ∃ n, h3_distance (hex_id row) (hex_id r2) = Ok n ∧ (n ≤ 0 ∨ 4 < n)) df →
  compute_neighbours_costs_for_row h3_distance row df = Ok [NaN; NaN; NaN; NaN].
Proof.
  intros Hout.
  assert (Hd : ∀ d, d ≤ 4 →
            compute_neighbours_col h3_distance row df d "cost_of_living" = Ok NaN).
  { intros d Hd. unfold compute_neighbours_col.
    rewrite collect_costs_out_of_range; [done|].
    eapply Forall_impl; [exact Hout|]. intros r2 (n & Hn & Hrange).
    exists n. split; [done|]. lia. }
  unfold compute_neighbours_costs_for_row.
  by rewrite !Hd by lia.
Qed.

(** X13: a row inside the range that lacks the attribute column makes the
    call raise [KeyError] for that column (the rows before it being handled
    without error). *)
Theorem missing_attribute_raises row pre r2 post d col n :
  Forall (λ r, ∃ m, h3_distance (hex_id row) (hex_id r) = Ok m
                    ∧ (0 < m ≤ d → is_Some (attrs r !! col))) pre →
  h3_distance (hex_id row) (hex_id r2) = Ok n →
  0 < n ≤ d →
  attrs r2 !! col = None →
  compute_neighbours_col h3_distance row (pre ++ r2 :: post) d col
  = Raise (KeyError col).
Proof.
  intros Hpre Hn Hrange Hmissing. unfold compute_neighbours_col.
  assert (Hloop : ∀ costs,
            collect_costs h3_distance (hex_id row) (pre ++ r2 :: post) d col costs
            = Raise (KeyError col)).
  { induction Hpre as [|r pre (m & Hm & Hcol) _ IH]; intros costs; simpl.
    - rewrite Hn. simpl.
      destruct (Z.ltb_spec 0 n), (Z.leb_spec n d); try lia. simpl.
      unfold getitem. by rewrite Hmissing.
    - rewrite Hm. simpl.
      destruct (Z.ltb_spec 0 m), (Z.leb_spec m d); simpl; try apply IH.
      destruct Hcol as [v Hv]; [lia|]. unfold getitem. rewrite Hv. simpl. apply IH. }
  by rewrite Hloop.
Qed.

(** X14: when no row lies in the band (d, d'], the results at [d] and at
    [d'] are the same, errors included. *)
Theorem empty_band_same_result row df d d' col :
  d ≤ d' →
  Forall (λ r, ∀ m, h3_distance (hex_id row) (hex_id r) = Ok m → ¬ (d < m ∧ m ≤ d')) df →
  compute_neighbours_col h3_distance row df d col
  = compute_neighbours_col h3_distance row df d' col.
Proof.
  intros Hle Hband. unfold compute_neighbours_col.
  assert (Hloop : ∀ costs,
            collect_costs h3_distance (hex_id row) df d col costs
            = collect_costs h3_distance (hex_id row) df d' col costs).
  { induction Hband as [|r df Hr _ IH]; intros costs; [done|]. simpl.
    destruct (h3_distance (hex_id row) (hex_id r)) as [m|e]; [|done]. simpl.
    specialize (Hr m eq_refl).
    destruct (Z.ltb_spec 0 m), (Z.leb_spec m d), (Z.leb_spec m d'); simpl;
      try lia; try apply IH.
    destruct (getitem r col); [|done]. simpl. apply IH. }
  by rewrite Hloop.
Qed.

End AggregatorEdges.

(** * Further properties of the indexer *)

Section IndexerEdges.

Variable geo_to_h3 : pyval → pyval → Z → result string.


Lemma try_finally_state {A} (body : io A) (fin : io unit) st :
  snd (try_finally body fin st) = snd (fin (snd (body st))).
Proof.
  unfold try_finally. destruct (body st) as [r st1]. simpl.
  by destruct (fin st1) as [[[]|e] st2].
Qed.

(** The [finally] block leaves the output file and the written rows alone. *)
Lemma cleanup_keeps_output (E : env) st :
  out_file (snd (cleanup E st)) = out_file st
  ∧ rows_written (snd (cleanup E st)) = rows_written st
  ∧ ∃ evs, trace (snd (cleanup E st)) = trace st ++ evs
         ∧ Forall (λ ev, is_write_table ev = false ∧ is_fetch ev = false
                         ∧ is_open_writer ev = false ∧ is_chunk_print ev = false) evs.
Proof.
  destruct st as [w f tr]. unfold rows_written. unfold_io. simpl.
  destruct w; [destruct (close_fails E)|]; simpl;
    (split; [done|]); rewrite ?written_tables_app; unfold written_tables; simpl;
    rewrite ?app_nil_r; (split; [done|]).
  - exists []. by rewrite app_nil_r.
  - exists [ECloseWriter; ECloseConn; EPrint ProcessingComplete].
    rewrite <- !app_assoc. split; [done|]. by repeat constructor.
  - exists [ECloseConn; EPrint ProcessingComplete].
    rewrite <- !app_assoc. split; [done|]. by repeat constructor.
Qed.






Lemma assign_column_length (df : list Series) label column :
  (length (assign_column df label column) ≤ length df)%nat.
Proof. unfold assign_column. rewrite length_zip_with. lia. Qed.

Lemma process_chunk_bounded (E : env) cs offset st :
  Forall (chunk_bounded (Z.to_nat cs)) (trace st) →
  Forall (chunk_bounded (Z.to_nat cs))
    (trace (snd (process_chunk geo_to_h3 E cs offset st))).
Proof.
  destruct st as [w f tr]. simpl. intros Htr.
  assert (Hdf : ∀ rows column,
             chunk_bounded (Z.to_nat cs)
               (EWriteTable (assign_column
                               (take (Z.to_nat cs) (drop (Z.to_nat offset) rows))
                               "h3_index" column))).
  { intros rows column. simpl.
    etrans; [apply assign_column_length|]. rewrite length_take. lia. }
  unfold_io. simpl.
  repeat (case_match; simpl in *; simplify_eq); try done; simpl;
    repeat match goal with
           | |- Forall _ (_ ++ _) => apply Forall_app_2
           | |- Forall _ (_ :: _) => constructor
           | |- Forall _ [] => constructor
           end; simpl; auto.
Qed.

Lemma for_each_bounded (E : env) cs offsets st :
  Forall (chunk_bounded (Z.to_nat cs)) (trace st) →
  Forall (chunk_bounded (Z.to_nat cs))
    (trace (snd (for_each offsets (process_chunk geo_to_h3 E cs) st))).
Proof.
  revert st. induction offsets as [|offset offsets IH]; intros st Hst; [done|].
  simpl. unfold mbind, io_bind.
  pose proof (process_chunk_bounded E cs offset st Hst) as Hstep.
  destruct (process_chunk geo_to_h3 E cs offset st) as [[[]|e] st1]; simpl in *.
  - by apply IH.
  - done.
Qed.

(** X3: no table handed to [write_table] has more than [chunk_size] rows,
    on any input, for any chunk size and whatever fails. *)
Theorem written_tables_bounded (E : env) cs :
  Forall (chunk_bounded (Z.to_nat cs)) (trace (snd (run geo_to_h3 E cs))).
Proof.
  destruct (input_rows E) as [rows|] eqn:Hin.
  2: { unfold run, process_file_with_h3, duckdb_connect, count_rows.
       rewrite Hin. by repeat constructor. }
  rewrite (run_try_finally geo_to_h3 E cs rows Hin), try_finally_state.
  set (st0 := {| writer := None; out_file := None; trace := _ |}).
  destruct (cleanup_keeps_output E (snd (chunk_loop geo_to_h3 E cs
                                           (Z.of_nat (length rows)) st0)))
    as (_ & _ & evs & -> & Hevs).
  apply Forall_app. split.
  - unfold chunk_loop, mbind, io_bind, lift.
    destruct (py_range 0 (Z.of_nat (length rows)) cs) as [offsets|e].
    + apply for_each_bounded. by repeat constructor.
    + by repeat constructor.
  - eapply Forall_impl; [exact Hevs|].
    intros ev (Hw & _). by destruct ev.
Qed.

Lemma py_range_negative (n cs : Z) : 0 ≤ n → cs < 0 → py_range 0 n cs = Ok [].
Proof.
  intros Hn Hcs. unfold py_range, range_len.
  destruct (Z.eqb_spec cs 0) as [?|_]; [lia|].
  destruct (Z.ltb_spec 0 cs) as [?|_]; [lia|].
  assert ((0 - n - cs - 1) / - cs < 1) by (apply Z.div_lt_upper_bound; lia).
  by rewrite Z.max_l by lia.
Qed.

Lemma py_range_single (n cs : Z) : 0 < n → n ≤ cs → py_range 0 n cs = Ok [0].
Proof.
  intros Hn Hcs. unfold py_range, range_len.
  destruct (Z.eqb_spec cs 0) as [?|_]; [lia|].
  destruct (Z.ltb_spec 0 cs) as [_|?]; [|lia].
  assert ((n - 0 + cs - 1) / cs = 1) as ->.
  { symmetry. apply (Z.div_unique _ _ 1 (n - 1)); lia. }
  reflexivity.
Qed.

Lemma py_range_first (n cs : Z) :
  0 < n → 0 < cs → ∃ offsets, py_range 0 n cs = Ok (0 :: offsets).
Proof.
  intros Hn Hcs. unfold py_range.
  destruct (Z.eqb_spec cs 0) as [?|_]; [lia|].
  pose proof (range_len_nonempty n cs Hn Hcs) as Hlen.
  destruct (Z.to_nat (range_len 0 n cs)) as [|m]; [lia|].
  simpl. by eexists.
Qed.

(** X4: a chunk size that is not positive reads and writes nothing on any
    readable input: a negative one makes the loop empty and the call returns
    normally; zero makes [range] raise [ValueError].  In both cases no chunk
    is fetched, no writer is opened, no output file is created and the
    connection is closed. *)
Theorem nonpositive_chunk_size_writes_nothing (E : env) rows cs :
  input_rows E = Some rows → cs ≤ 0 →
  run geo_to_h3 E cs
  = (if cs =? 0 then Raise (ValueError "range() arg 3 must not be zero") else Ok tt,
     {| writer := None; out_file := None;
        trace := [EConnect; ECountRows; EPrint (TotalRows (Z.of_nat (length rows)));
                  ECloseConn; EPrint ProcessingComplete] |}).
Proof.
  intros Hin Hcs. rewrite (run_try_finally geo_to_h3 E cs rows Hin).
  unfold try_finally, chunk_loop, mbind, io_bind, lift.
  destruct (Z.eqb_spec cs 0) as [->|Hne].
  - reflexivity.
  - by rewrite py_range_negative by lia.
Qed.

(** X5: the sentinel covers only the conversion.  When the first row of the
    input lacks the [lat] column (or has it and lacks [lon]), the call raises
    [KeyError] for that label: one chunk is fetched, no writer is opened, no
    output file is created, and the connection is closed. *)
Theorem missing_coordinate_column_raises (E : env) (row : Series) rest cs label :
  input_rows E = Some (row :: rest) → 0 < cs → fetch_fails E 0 = false →
  (row !! "lat" = None ∧ label = "lat")
  ∨ (is_Some (row !! "lat") ∧ row !! "lon" = None ∧ label = "lon") →
  run geo_to_h3 E cs
  = (Raise (KeyError label),
     {| writer := None; out_file := None;
        trace := [EConnect; ECountRows;
                  EPrint (TotalRows (Z.of_nat (length (row :: rest))));
                  EFetch 0; ECloseConn; EPrint ProcessingComplete] |}).
Proof.
  intros Hin Hcs Hfetch Hmissing.
  rewrite (run_try_finally geo_to_h3 E cs _ Hin).
  destruct (py_range_first (Z.of_nat (length (row :: rest))) cs) as [offsets Hrange];
    [simpl; lia|done|].
  unfold try_finally, chunk_loop, mbind at 1, io_bind at 1, lift. rewrite Hrange.
  simpl for_each. unfold mbind at 1, io_bind at 1.
  assert (Hchunk : ∀ st,
            process_chunk geo_to_h3 E cs 0 st
            = (Raise (KeyError label),
               {| writer := writer st; out_file := out_file st;
                  trace := trace st ++ [EFetch 0] |})).
  { intros st. unfold process_chunk, fetchdf. rewrite Hin, Hfetch.
    unfold_io. simpl.
    destruct (Z.to_nat cs) as [|c] eqn:Hc; [lia|]. simpl.
    unfold index_row, series_get.
    destruct Hmissing as [[-> ->]|([lat ->] & -> & ->)]; reflexivity. }
  rewrite Hchunk. reflexivity.
Qed.

(** One chunk of a call in which nothing fails, as a state. *)
Lemma process_chunk_no_faults_state rows cs offset st :
  has_coordinates rows →
  (∀ schema, writer st = Some schema → schema = ∅) →
  process_chunk geo_to_h3 (no_faults rows) cs offset st
  = (Ok tt,
     {| writer := Some ∅;
        out_file := Some (match writer st with
                          | Some _ => output_rows st
                          | None => []
                          end
                          ++ (indexed geo_to_h3
                                <$> take (Z.to_nat cs) (drop (Z.to_nat offset) rows)));
        trace := trace st ++ [EFetch offset]
                 ++ match writer st with Some _ => [] | None => [EOpenWriter] end
                 ++ [EWriteTable (indexed geo_to_h3
                                    <$> take (Z.to_nat cs) (drop (Z.to_nat offset) rows));
                     EPrint (ChunkWritten offset)] |}).
Proof.
  intros Hc Hw.
  destruct (apply_axis1_indexed geo_to_h3 (take (Z.to_nat cs) (drop (Z.to_nat offset) rows)))
    as (column & Hcol & Hassign).
  { by apply has_coordinates_take, has_coordinates_drop. }
  destruct st as [w f tr]. unfold process_chunk, fetchdf, output_rows. simpl in *.
  unfold_io. simpl. rewrite Hcol, Hassign.
  destruct w as [schema|]; simpl.
  - rewrite (Hw schema eq_refl). rewrite decide_True by done. simpl.
    by rewrite <- ?app_assoc.
  - rewrite decide_True by done. simpl. by rewrite <- ?app_assoc.
Qed.

(** X6: an input that fits into one chunk is read by one query and written
    by one [write_table], as a whole. *)
Theorem single_chunk_run rows cs :
  has_coordinates rows → rows ≠ [] → Z.of_nat (length rows) ≤ cs →
  run geo_to_h3 (no_faults rows) cs
  = (Ok tt,
     {| writer := Some (table_schema (no_faults rows) (indexed geo_to_h3 <$> rows));
        out_file := Some (indexed geo_to_h3 <$> rows);
        trace := [EConnect; ECountRows; EPrint (TotalRows (Z.of_nat (length rows)));
                  EFetch 0; EOpenWriter; EWriteTable (indexed geo_to_h3 <$> rows);
                  EPrint (ChunkWritten 0);
                  ECloseWriter; ECloseConn; EPrint ProcessingComplete] |}).
Proof.
  intros Hc Hne Hcs.
  assert (0 < Z.of_nat (length rows)) by (destruct rows; [done|simpl; lia]).
  rewrite (run_try_finally geo_to_h3 (no_faults rows) cs rows eq_refl).
  unfold try_finally, chunk_loop, mbind at 1, io_bind at 1, lift.
  rewrite py_range_single by done.
  simpl for_each. unfold mbind at 1, io_bind at 1.
  rewrite (process_chunk_no_faults_state rows cs 0 _ Hc) by done.
  change (Z.to_nat 0) with 0%nat. rewrite drop_0, (take_ge rows) by lia.
  reflexivity.
Qed.

(** The loop of a call in which nothing fails: every offset adds one query,
    one [write_table] and one progress line; the writer is opened with the
    first. *)
Lemma for_each_no_faults_counts rows cs offsets st :
  has_coordinates rows →
  (∀ schema, writer st = Some schema → schema = ∅) →
  let r := for_each offsets (process_chunk geo_to_h3 (no_faults rows) cs) st in
  fst r = Ok tt
  ∧ count_events is_fetch (snd r) = (count_events is_fetch st + length offsets)%nat
  ∧ count_events is_write_table (snd r)
    = (count_events is_write_table st + length offsets)%nat
  ∧ count_events is_chunk_print (snd r)
    = (count_events is_chunk_print st + length offsets)%nat
  ∧ count_events is_open_writer (snd r)
    = (count_events is_open_writer st
       + match writer st with
         | Some _ => 0
         | None => match offsets with [] => 0 | _ => 1 end
         end)%nat.
Proof.
  intros Hc. revert st.
  induction offsets as [|offset offsets IH]; intros st Hw; simpl.
  { destruct (writer st); repeat split; lia. }
  unfold mbind, io_bind.
  rewrite (process_chunk_no_faults_state rows cs offset st Hc Hw).
  specialize (IH {| writer := Some ∅;
                    out_file := Some (match writer st with
                                      | Some _ => output_rows st
                                      | None => []
                                      end
                                      ++ (indexed geo_to_h3
                                            <$> take (Z.to_nat cs)
                                                  (drop (Z.to_nat offset) rows)));
                    trace := trace st ++ [EFetch offset]
                             ++ match writer st with
                                | Some _ => []
                                | None => [EOpenWriter]
                                end
                             ++ [EWriteTable (indexed geo_to_h3
                                                <$> take (Z.to_nat cs)
                                                      (drop (Z.to_nat offset) rows));
                                 EPrint (ChunkWritten offset)] |}).
  simpl in IH. destruct IH as (Hr & Hf & Hwt & Hp & Ho); [by intros ? [= <-]|].
  unfold count_events in *. simpl in *.
  rewrite Hr, Hf, Hwt, Hp, Ho, !count_in_app.
  destruct (writer st); unfold count_in; simpl; repeat split; lia.
Qed.

Lemma run_no_faults_counts rows cs :
  has_coordinates rows → 0 < cs →
  let st := snd (run geo_to_h3 (no_faults rows) cs) in
  let chunks := Z.to_nat (range_len 0 (Z.of_nat (length rows)) cs) in
  count_events is_fetch st = chunks
  ∧ count_events is_write_table st = chunks
  ∧ count_events is_chunk_print st = chunks
  ∧ count_events is_open_writer st = match rows with [] => 0%nat | _ => 1%nat end.
Proof.
  intros Hc Hcs st chunks. unfold st.
  rewrite (run_try_finally geo_to_h3 (no_faults rows) cs rows eq_refl),
    try_finally_state.
  set (st0 := {| writer := None; out_file := None; trace := _ |}).
  destruct (cleanup_keeps_output (no_faults rows)
              (snd (chunk_loop geo_to_h3 (no_faults rows) cs
                      (Z.of_nat (length rows)) st0)))
    as (_ & _ & evs & Htrace & Hevs).
  assert (Hnone : ∀ p, Forall (λ ev, p ev = false) evs → count_in p evs = 0%nat).
  { intros p Hp. unfold count_in. clear -Hp.
    induction Hp as [|ev evs Hev _ IH]; [done|]. simpl. by rewrite Hev. }
  unfold count_events. rewrite Htrace, !count_in_app.
  rewrite !Hnone
    by (eapply Forall_impl; [exact Hevs|]; by intros ev (? & ? & ? & ?)).
  unfold chunk_loop, py_range, mbind at 1 2 3 4, io_bind at 1 2 3 4, lift.
  destruct (Z.eqb_spec cs 0) as [?|_]; [lia|].
  fold chunks.
  set (offsets := (λ i : nat, 0 + Z.of_nat i * cs) <$> seq 0 chunks).
  destruct (for_each_no_faults_counts rows cs offsets st0 Hc)
    as (_ & Hf & Hw & Hp & Ho); [done|].
  unfold count_events in *. rewrite Hf, Hw, Hp, Ho.
  assert (Hlen : length offsets = chunks).
  { unfold offsets. by rewrite length_fmap, length_seq. }
  rewrite Hlen. unfold count_in. simpl.
  repeat split; try lia.
  destruct rows as [|row rows].
  - unfold offsets, chunks. simpl. rewrite range_len_empty by lia. done.
  - pose proof (range_len_nonempty (Z.of_nat (length (row :: rows))) cs) as Hpos.
    unfold offsets. fold chunks in Hpos.
    destruct chunks; [simpl in Hpos; lia|done].
Qed.

(** X7: a call in which nothing fails issues one query, one [write_table]
    and one progress line per chunk, [ceil(n / chunk_size)] of each for [n]
    rows, and opens the writer once unless the input is empty. *)
Theorem chunk_counts rows cs :
  has_coordinates rows → 0 < cs →
  let st := snd (run geo_to_h3 (no_faults rows) cs) in
  let n := Z.of_nat (length rows) in
  count_events is_fetch st = chunk_count n cs
  ∧ count_events is_write_table st = chunk_count n cs
  ∧ count_events is_chunk_print st = chunk_count n cs
  ∧ count_events is_open_writer st = match rows with [] => 0%nat | _ => 1%nat end
  ∧ n ≤ Z.of_nat (chunk_count n cs) * cs < n + cs.
Proof.
  intros Hc Hcs st n.
  destruct (run_no_faults_counts rows cs Hc Hcs) as (Hf & Hw & Hp & Ho).
  assert (Hlen : Z.to_nat (range_len 0 n cs) = chunk_count n cs).
  { unfold range_len, chunk_count.
    destruct (Z.ltb_spec 0 cs) as [_|?]; [|lia].
    replace (n - 0 + cs - 1) with (n + cs - 1) by lia.
    rewrite Z.max_r; [done|]. apply Z.div_pos; lia. }
  fold n in Hf, Hw, Hp. rewrite Hlen in Hf, Hw, Hp.
  split; [exact Hf|]. split; [exact Hw|]. split; [exact Hp|]. split; [exact Ho|].
  unfold chunk_count.
  pose proof (Z.div_mod (n + cs - 1) cs) as Hdm.
  pose proof (Z.mod_pos_bound (n + cs - 1) cs Hcs) as Hmod.
  assert (0 ≤ (n + cs - 1) / cs) by (apply Z.div_pos; lia).
  rewrite Z2Nat.id by done. nia.
Qed.

Lemma indexed_idempotent (row : Series) :
  indexed geo_to_h3 (indexed geo_to_h3 row) = indexed geo_to_h3 row.
Proof.
  unfold indexed.
  destruct (row !! "lat") as [lat|] eqn:Hlat; [|by rewrite Hlat].
  destruct (row !! "lon") as [lon|] eqn:Hlon; [|by rewrite Hlat, Hlon].
  rewrite !lookup_insert_ne, Hlat, Hlon by done.
  apply insert_insert_eq.
Qed.

Lemma has_coordinates_indexed rows :
  has_coordinates rows → has_coordinates (indexed geo_to_h3 <$> rows).
Proof.
  unfold has_coordinates. intros Hc. apply Forall_fmap.
  eapply Forall_impl; [exact Hc|].
  intros row [[lat Hlat] [lon Hlon]]. simpl. unfold indexed.
  rewrite Hlat, Hlon, !lookup_insert_ne by done. by rewrite Hlat, Hlon.
Qed.

(** X8: indexing is idempotent.  A second call on the output of a first one
    (with any positive chunk sizes, nothing failing) succeeds and writes the
    same rows: the [h3_index] column is overwritten by the same values, not
    added a second time. *)
Theorem reindexing_is_idempotent rows cs1 cs2 :
  has_coordinates rows → 0 < cs1 → 0 < cs2 →
  let out := output_rows (snd (run geo_to_h3 (no_faults rows) cs1)) in
  fst (run geo_to_h3 (no_faults out) cs2) = Ok tt
  ∧ output_rows (snd (run geo_to_h3 (no_faults out) cs2)) = out.
Proof.
  intros Hc H1 H2.
  destruct (run_no_faults geo_to_h3 rows cs1 Hc H1) as (st1 & Hr1 & Ho1 & _).
  simpl. rewrite Hr1. simpl. rewrite Ho1.
  destruct (run_no_faults geo_to_h3 (indexed geo_to_h3 <$> rows) cs2
              (has_coordinates_indexed rows Hc) H2) as (st2 & Hr2 & Ho2 & _).
  rewrite Hr2. simpl. split; [done|]. rewrite Ho2, <- list_fmap_compose.
  apply list_fmap_ext. intros _ row _. apply indexed_idempotent.
Qed.

(** X9: the script [dataframe_enrichment.py], on an input whose rows have
    coordinates and with nothing failing, returns normally with every row
    indexed in the output; an input of at most 1,000,000 rows is handled as
    one chunk. *)
Theorem dataframe_enrichment_main_indexes rows :
  has_coordinates rows →
  let r := dataframe_enrichment_main geo_to_h3 (no_faults rows) in
  fst r = Ok tt
  ∧ output_rows (snd r) = indexed geo_to_h3 <$> rows
  ∧ (rows ≠ [] → Z.of_nat (length rows) ≤ 1000000 →
     count_events is_fetch (snd r) = 1%nat
     ∧ count_events is_write_table (snd r) = 1%nat).
Proof.
  intros Hc. unfold dataframe_enrichment_main.
  destruct (run_no_faults geo_to_h3 rows 1000000 Hc eq_refl) as (st & Hr & Ho & _).
  destruct (run_no_faults_counts rows 1000000 Hc eq_refl) as (Hf & Hw & _).
  simpl. rewrite Hr in *. simpl in *.
  split; [done|]. split; [done|].
  intros Hne Hlen.
  assert (Hone : Z.to_nat (range_len 0 (Z.of_nat (length rows)) 1000000) = 1%nat).
  { unfold range_len. change (0 <? 1000000) with true. cbv iota.
    assert ((Z.of_nat (length rows) - 0 + 1000000 - 1) / 1000000 = 1) as ->.
    { symmetry. apply (Z.div_unique _ _ 1 (Z.of_nat (length rows) - 1)).
      - destruct rows; [done|]. simpl length in *. lia.
      - lia. }
    reflexivity. }
  by rewrite Hf, Hw, Hone.
Qed.

End IndexerEdges.

(** ** The further properties on concrete inputs *)

Lemma cleanup_after_loop_witness :
  let r := run toy_geo_to_h3 (write_failure five_points 2) 2 in
  fst r = Raise (IOError "write failed")
  ∧ count_events is_close_conn (snd r) = 1%nat
  ∧ count_events is_close_writer (snd r) = count_events is_open_writer (snd r).
Proof.
  destruct (cleanup_after_loop toy_geo_to_h3 (write_failure five_points 2) 2
              five_points eq_refl eq_refl) as (Hr & _ & Hconn & Hwriter & _).
  cbv zeta. split; [|split; [exact Hconn|exact Hwriter]].
  rewrite Hr. vm_compute. reflexivity.
Defined.


Lemma nonpositive_chunk_size_writes_nothing_witness :
  fst (run toy_geo_to_h3 (no_faults three_points) (-5)) = Ok tt
  ∧ out_file (snd (run toy_geo_to_h3 (no_faults three_points) (-5))) = None
  ∧ fst (run toy_geo_to_h3 (no_faults three_points) 0)
    = Raise (ValueError "range() arg 3 must not be zero").
Proof.
  assert (Hneg : -5 ≤ 0) by lia. assert (Hzero : 0 ≤ 0) by lia.
  rewrite (nonpositive_chunk_size_writes_nothing toy_geo_to_h3 (no_faults three_points)
             three_points (-5) eq_refl Hneg).
  rewrite (nonpositive_chunk_size_writes_nothing toy_geo_to_h3 (no_faults three_points)
             three_points 0 eq_refl Hzero).
  repeat split.
Defined.

Lemma missing_coordinate_column_raises_witness :
  fst (run toy_geo_to_h3 (no_faults [no_latitude 3; point 1 2]) 2) = Raise (KeyError "lat")
  ∧ out_file (snd (run toy_geo_to_h3 (no_faults [no_latitude 3; point 1 2]) 2)) = None.
Proof.
  rewrite (missing_coordinate_column_raises toy_geo_to_h3
             (no_faults [no_latitude 3; point 1 2]) (no_latitude 3) [point 1 2] 2 "lat"
             eq_refl eq_refl eq_refl (or_introl (conj eq_refl eq_refl))).
  split; reflexivity.
Defined.

Lemma single_chunk_run_witness :
  count_events is_fetch (snd (run toy_geo_to_h3 (no_faults three_points) 3)) = 1%nat
  ∧ out_file (snd (run toy_geo_to_h3 (no_faults three_points) 3))
    = out_file (snd (run toy_geo_to_h3 (no_faults three_points) 10000)).
Proof.
  assert (Hne : three_points ≠ []) by discriminate.
  assert (H3 : Z.of_nat (length three_points) ≤ 3) by (simpl; lia).
  assert (H4 : Z.of_nat (length three_points) ≤ 10000) by (simpl; lia).
  rewrite (single_chunk_run toy_geo_to_h3 three_points 3
             three_points_have_coordinates Hne H3).
  rewrite (single_chunk_run toy_geo_to_h3 three_points 10000
             three_points_have_coordinates Hne H4).
  split; reflexivity.
Defined.

Lemma chunk_counts_witness :
  count_events is_fetch (snd (run toy_geo_to_h3 (no_faults five_points) 2)) = 3%nat
  ∧ count_events is_write_table (snd (run toy_geo_to_h3 (no_faults five_points) 2)) = 3%nat.
Proof.
  destruct (chunk_counts toy_geo_to_h3 five_points 2 five_points_have_coordinates eq_refl)
    as (Hf & Hw & _).
  split; [exact Hf|exact Hw].
Defined.

Lemma reindexing_is_idempotent_witness :
  let out := output_rows (snd (run toy_geo_to_h3 (no_faults three_points) 2)) in
  length out = 3%nat
  ∧ output_rows (snd (run toy_geo_to_h3 (no_faults out) 5)) = out.
Proof.
  destruct (reindexing_is_idempotent toy_geo_to_h3 three_points 2 5
              three_points_have_coordinates eq_refl eq_refl) as [_ Hsame].
  cbv zeta. split; [vm_compute; reflexivity|exact Hsame].
Defined.

Lemma dataframe_enrichment_main_indexes_witness :
  fst (dataframe_enrichment_main toy_geo_to_h3 (no_faults three_points)) = Ok tt
  ∧ count_events is_fetch
      (snd (dataframe_enrichment_main toy_geo_to_h3 (no_faults three_points))) = 1%nat.
Proof.
  destruct (dataframe_enrichment_main_indexes toy_geo_to_h3 three_points
              three_points_have_coordinates) as (Hr & _ & Hone).
  split; [exact Hr|]. apply Hone; [discriminate|simpl; lia].
Defined.

Lemma far_from_D :
  Forall (λ r2, ∃ n, toy_distance "D" (hex_id r2) = Ok n ∧ (n ≤ 0 ∨ 4 < n)) table_ABCD.
Proof. forall_elements; eexists; (split; [reflexivity|lia]). Defined.

Lemma no_row_in_range_nan_witness :
  compute_neighbours_col toy_distance (bare_hex_row "D") table_ABCD 4 "no_such_column"
  = Ok NaN.
Proof.
  exact (no_row_in_range_nan toy_distance (bare_hex_row "D") table_ABCD 4
           "no_such_column" far_from_D).
Defined.

Lemma nonpositive_distance_nan_witness :
  compute_neighbours_col toy_distance (hex_row "A" 10) table_ABCD 0 "cost_of_living"
  = Ok NaN.
Proof.
  apply nonpositive_distance_nan; [lia|]. forall_elements; reflexivity.
Defined.

Lemma isolated_row_all_nan_witness :
  compute_neighbours_costs_for_row toy_distance (hex_row "D" 5) table_ABCD
  = Ok [NaN; NaN; NaN; NaN].
Proof. exact (isolated_row_all_nan toy_distance (hex_row "D" 5) table_ABCD far_from_D). Defined.

Lemma missing_attribute_raises_witness :
  compute_neighbours_col toy_distance (hex_row "A" 10)
    [hex_row "A" 10; bare_hex_row "B"; hex_row "C" 60] 1 "cost_of_living"
  = Raise (KeyError "cost_of_living").
Proof.
  apply (missing_attribute_raises toy_distance (hex_row "A" 10)
           [hex_row "A" 10] (bare_hex_row "B") [hex_row "C" 60] 1 "cost_of_living" 1).
  - forall_elements. exists 0. split; [reflexivity|lia].
  - reflexivity.
  - lia.
  - reflexivity.
Defined.

Lemma empty_band_same_result_witness :
  compute_neighbours_col toy_distance (hex_row "A" 10) table_ABCD 2 "cost_of_living"
  = compute_neighbours_col toy_distance (hex_row "A" 10) table_ABCD 4 "cost_of_living".
Proof.
  apply empty_band_same_result; [lia|].
  forall_elements; intros m [= <-]; lia.
Defined.

